(** * CRNN audio classifier notebook: training loop, data preparation,
      model shapes and the competition metric

    Shallow embedding of [notebooks/crnn_audio_model.ipynb].  The numeric
    work of an epoch (forward and backward passes, the optimizer, the value
    returned by [roc_auc_score]) is supplied by an oracle, which may also
    report that an exception escaped the epoch; whether the checkpoint
    file can be read back is a second oracle.  The control flow around
    them -- history, scheduler calls, checkpoint file, stall counter,
    early stopping, final reload -- is transcribed statement by statement. *)

From stdpp Require Import gmap strings list pretty.
From Stdlib Require Import QArith Lia List Bool Arith Reals Lra Lqa Sorted Permutation.
Import ListNotations.

Close Scope R_scope.
Close Scope Q_scope.

(** Python's [a > b] on the rationals standing for floats. *)
Definition Qgt_bool (a b : Q) : bool := negb (Qle_bool a b).

(* ================================================================== *)
(** * Training loop ([train_precomputed_crnn])                         *)
(* ================================================================== *)

Module Training.

(** Loop exits: falling through to the next iteration, or [break]. *)
Inductive ctrl := Continue | Break.

(** How the function can end by raising: an exception escapes an epoch
    (the averages [running_loss / total] and [val_running_loss / val_total]
    and the forward and backward passes are outside the [try] block);
    [torch.load] finds no file at [best_model_path]; or the file found
    there cannot be read back into the model ([torch.load] refuses its
    contents, [load_state_dict] refuses its parameters, or a key is
    missing). *)
Inductive exn := EpochError | FileNotFoundError | LoadError.

Definition num_epochs : nat := 50.
Definition patience : nat := 7.

Section Run.

(** [model.state_dict()]: the learned parameters, opaque here. *)
Variable params : Type.

(** What the training and validation phases of one epoch deliver to the
    bookkeeping code when no exception escapes them: the parameters after
    the optimizer steps, the four averaged metrics, and the outcome of the
    [try] block that calls [roc_auc_score] ([None]: an exception was
    raised inside it, before anything was appended to the history). *)
Record epoch_obs := {
  ob_params : params;
  ob_train_loss : Q;
  ob_train_acc : Q;
  ob_val_loss : Q;
  ob_val_acc : Q;
  ob_auc : option Q
}.

(** The dictionary written to [best_model_path]. *)
Record checkpoint := {
  model_state_dict : params;
  ck_epoch : nat;
  ck_val_auc : Q
}.

(** [history]: one list per key. *)
Record history := {
  h_train_loss : list Q;
  h_train_acc : list Q;
  h_val_loss : list Q;
  h_val_acc : list Q;
  h_val_auc : list Q
}.

Record loop_state := {
  best_auc : Q;
  wait : nat;
  hist : history;
  (** contents of the file at [best_model_path], if it exists *)
  best_file : option checkpoint;
  (** the [torch.save] calls on [best_model_path] of this run, oldest first *)
  saves : list checkpoint;
  (** the arguments of the [scheduler.step] calls, oldest first *)
  sched : list Q
}.

Variable obs : nat -> epoch_obs.

(** State at the head of the loop; [fs0] is whatever already sits at
    [best_model_path] ([os.makedirs(..., exist_ok=True)]). *)
Definition init (fs0 : option checkpoint) : loop_state :=
  {| best_auc := 0;
     wait := 0;
     hist := {| h_train_loss := []; h_train_acc := []; h_val_loss := [];
                h_val_acc := []; h_val_auc := [] |};
     best_file := fs0;
     saves := [];
     sched := [] |}.

(** The validation AUC of the epoch: the computed one, or in the
    [except] branch
    [history['val_auc'][-1] if history['val_auc'] else 0]. *)
Definition epoch_val_auc (epoch : nat) (st : loop_state) : Q :=
  match ob_auc (obs epoch) with
  | Some v => v
  | None => List.last (h_val_auc (hist st)) 0%Q
  end.

(** One iteration of [for epoch in range(num_epochs)] in which the two
    phases delivered [obs epoch]. *)
Definition epoch_body (epoch : nat) (st : loop_state) : loop_state * ctrl :=
  let o := obs epoch in
  let h := hist st in
  let val_auc := epoch_val_auc epoch st in
  let h' := {| h_train_loss := h_train_loss h ++ [ob_train_loss o];
               h_train_acc := h_train_acc h ++ [ob_train_acc o];
               h_val_loss := h_val_loss h ++ [ob_val_loss o];
               h_val_acc := h_val_acc h ++ [ob_val_acc o];
               h_val_auc := h_val_auc h ++ [val_auc] |} in
  let sched' := sched st ++ [val_auc] in
  if Qgt_bool val_auc (best_auc st) then
    let ck := {| model_state_dict := ob_params o;
                 ck_epoch := epoch;
                 ck_val_auc := val_auc |} in
    ({| best_auc := val_auc; wait := 0; hist := h';
        best_file := Some ck; saves := saves st ++ [ck];
        sched := sched' |}, Continue)
  else
    let wait' := S (wait st) in
    ({| best_auc := best_auc st; wait := wait'; hist := h';
        best_file := best_file st; saves := saves st;
        sched := sched' |},
     if patience <=? wait' then Break else Continue).

Fixpoint for_epochs (epochs : list nat) (st : loop_state)
  : loop_state * ctrl :=
  match epochs with
  | [] => (st, Continue)
  | epoch :: rest =>
      match epoch_body epoch st with
      | (st', Break) => (st', Break)
      | (st', Continue) => for_epochs rest st'
      end
  end.

(** The loop restricted to the first [k] values of [range(num_epochs)]. *)
Definition run (fs0 : option checkpoint) (k : nat) : loop_state * ctrl :=
  for_epochs (seq 0 k) (init fs0).

Inductive outcome :=
| Returned (r : option (params * history))
| Raised (e : exn).

(** ** Specification-level vocabulary *)

(** [v] strictly exceeds the initial best value 0 and every earlier
    validation AUC. *)
Definition improves_on (prev : list Q) (v : Q) : bool :=
  forallb (fun b => Qgt_bool v b) (0%Q :: prev).

(** Epoch [e] of the recorded run [aucs] was an improving one. *)
Definition improved (aucs : list Q) (e : nat) : bool :=
  improves_on (firstn e aucs) (nth e aucs 0%Q).

Fixpoint leading_false (l : list bool) : nat :=
  match l with
  | false :: l' => S (leading_false l')
  | _ => 0
  end.

(** Number of consecutive non-improving epochs at the end of [aucs]. *)
Definition streak (aucs : list Q) : nat :=
  leading_false (rev (map (improved aucs) (seq 0 (length aucs)))).

(** A checkpoint was written between [st] and [st']. *)
Definition persisted (st st' : loop_state) : Prop :=
  exists ck, saves st' = saves st ++ [ck].

(** The running best bounds, and is one of, 0 and the recorded AUCs. *)
Definition best_ok (best : Q) (aucs : list Q) : Prop :=
  Forall (fun b => (b <= best)%Q) (0%Q :: aucs) /\ In best (0%Q :: aucs).

End Run.

Arguments ob_params {params}.
Arguments ob_train_loss {params}.
Arguments ob_train_acc {params}.
Arguments ob_val_loss {params}.
Arguments ob_val_acc {params}.
Arguments ob_auc {params}.
Arguments model_state_dict {params}.
Arguments ck_epoch {params}.
Arguments ck_val_auc {params}.
Arguments best_auc {params}.
Arguments wait {params}.
Arguments hist {params}.
Arguments best_file {params}.
Arguments saves {params}.
Arguments sched {params}.
Arguments init {params}.
Arguments epoch_val_auc {params}.
Arguments epoch_body {params}.
Arguments for_epochs {params}.
Arguments run {params}.
Arguments persisted {params}.
Arguments Returned {params}.
Arguments Raised {params}.

(** ** The function as a whole *)

Section Function.

Variable params : Type.

(** The numeric work of each epoch: what its two phases deliver, or
    [None] when an exception escapes the epoch. *)
Variable phases : nat -> option (epoch_obs params).

(** Whether [torch.load], [model.load_state_dict] and the lookup of
    ['epoch'] succeed on a given file at [best_model_path]. *)
Variable loadable : checkpoint params -> bool.

(** The loop [for epoch in range(num_epochs)]; [None] when an exception
    ends it.  An epoch that delivered [o] goes through [epoch_body] with
    [o] as its observation. *)
Fixpoint for_epochs_raising (epochs : list nat) (st : loop_state params)
  : option (loop_state params * ctrl) :=
  match epochs with
  | [] => Some (st, Continue)
  | epoch :: rest =>
      match phases epoch with
      | None => None
      | Some o =>
          match epoch_body (fun _ => o) epoch st with
          | (st', Break) => Some (st', Break)
          | (st', Continue) => for_epochs_raising rest st'
          end
      end
  end.

(** [train_precomputed_crnn]; [loaded] is
    [X_train is not None and y_train is not None].  After the loop the
    file at [best_model_path] is read back unconditionally and its
    parameters become the returned model's.  The set-up before the loop
    and the [torch.save] of the ensemble file after the reload are taken
    to succeed.  Of the returned triple the model parameters and the
    history are kept; the label mapping, a function of the class count
    alone, is left out. *)
Definition train_precomputed_crnn (loaded : bool)
    (fs0 : option (checkpoint params)) : outcome params :=
  if negb loaded then Returned None
  else
    match for_epochs_raising (seq 0 num_epochs) (init fs0) with
    | None => Raised EpochError
    | Some (st, _) =>
        match best_file st with
        | None => Raised FileNotFoundError
        | Some checkpoint =>
            if loadable checkpoint
            then Returned (Some (model_state_dict checkpoint, hist st))
            else Raised LoadError
        end
    end.

End Function.

Arguments for_epochs_raising {params}.
Arguments train_precomputed_crnn {params}.

(** ** Sample runs

    Oracles with trivial parameters, fixed losses and a chosen sequence of
    AUC outcomes. *)

Definition obs_of (auc : nat -> option Q) : nat -> epoch_obs unit :=
  fun epoch =>
    {| ob_params := tt;
       ob_train_loss := 1; ob_train_acc := 0;
       ob_val_loss := 1; ob_val_acc := 0;
       ob_auc := auc epoch |}.

(** Every epoch scores an AUC of exactly 0. *)
Definition zero_auc_obs : nat -> epoch_obs unit :=
  obs_of (fun _ => Some 0%Q).

(** The AUC computation raises in every epoch. *)
Definition failing_obs : nat -> epoch_obs unit :=
  obs_of (fun _ => None).

(** 0.5 in the first epoch, a failure in the second, 0.25 afterwards. *)
Definition half_then_quarter_obs : nat -> epoch_obs unit :=
  obs_of (fun epoch =>
            match epoch with
            | 0 => Some (1 # 2)%Q
            | 1 => None
            | _ => Some (1 # 4)%Q
            end).

(** A run in which no exception escapes an epoch. *)
Definition completing {params : Type} (obs : nat -> epoch_obs params)
  : nat -> option (epoch_obs params) :=
  fun epoch => Some (obs epoch).

(** Parameters numbered by the epoch that produced them; the AUC
    computation raises in every epoch. *)
Definition numbered_failing_obs : nat -> epoch_obs nat :=
  fun epoch =>
    {| ob_params := S epoch;
       ob_train_loss := 1; ob_train_acc := 0;
       ob_val_loss := 1; ob_val_acc := 0;
       ob_auc := None |}.

(** A checkpoint left at [best_model_path] by an earlier run. *)
Definition stale_checkpoint : checkpoint nat :=
  {| model_state_dict := 0; ck_epoch := 11; ck_val_auc := (9 # 10)%Q |}.

End Training.

(* ================================================================== *)
(** * Singleton-class filtering (the cell after [load_precomputed_features]) *)
(* ================================================================== *)

Module Filtering.

(** [np.bincount(y)]: entry [c] counts the occurrences of [c]; the result
    has [max(y) + 1] entries and is empty for an empty [y].  Labels are
    non-negative integers ([bincount] rejects anything else). *)
Definition bincount (y : list nat) : list nat :=
  match y with
  | [] => []
  | _ => map (count_occ Nat.eq_dec y) (seq 0 (S (list_max y)))
  end.

(** [np.any(label_counts == 1)] *)
Definition any_eq_1 (label_counts : list nat) : bool :=
  existsb (Nat.eqb 1) label_counts.

(** [np.where(label_counts >= 2)[0]] *)
Definition where_ge_2 (label_counts : list nat) : list nat :=
  List.filter (fun c => 2 <=? nth c label_counts 0)
              (seq 0 (length label_counts)).

(** [np.isin(y, classes)] *)
Definition isin (y classes : list nat) : list bool :=
  map (fun c => existsb (Nat.eqb c) classes) y.

(** Boolean-mask indexing [a[mask]]; NumPy raises [IndexError] ([None])
    when mask and array differ in length. *)
Fixpoint mask_select {A : Type} (mask : list bool) (a : list A)
  : option (list A) :=
  match mask, a with
  | [], [] => Some []
  | b :: mask', x :: a' =>
      match mask_select mask' a' with
      | Some r => Some (if b then x :: r else r)
      | None => None
      end
  | _, _ => None
  end.

(** Body of [if X is not None and y is not None:] up to the split; the
    result is the pair of rebound globals [(X, y)]. *)
Definition filter_singletons {feature : Type}
    (X : list feature) (y : list nat) : option (list feature * list nat) :=
  let label_counts := bincount y in
  if any_eq_1 label_counts then
    let valid_indices := isin y (where_ge_2 label_counts) in
    match mask_select valid_indices X, mask_select valid_indices y with
    | Some X', Some y' => Some (X', y')
    | _, _ => None
    end
  else Some (X, y).

End Filtering.

(* ================================================================== *)
(** * Dataset wrapper ([PrecomputedFeatureDataset])                    *)
(* ================================================================== *)

Module Dataset.

(** A NumPy array or tensor: its shape and its entries in row-major order. *)
Record ndarray := { shape : list nat; data : list Q }.

(** [feature[np.newaxis, :, :]] *)
Definition newaxis (a : ndarray) : ndarray :=
  {| shape := 1 :: shape a; data := data a |}.

Record PrecomputedFeatureDataset := {
  features : list ndarray;
  labels : list nat
}.

(** [__len__] *)
Definition len (self : PrecomputedFeatureDataset) : nat :=
  length (features self).

(** [__getitem__] at an index counted from the front, as a sampler hands
    out; [None] is the [IndexError] of an index out of range.  The entries
    are the stored ones: the rounding of [dtype=torch.float32] and the
    integer width of [dtype=torch.long] are outside the model. *)
Definition getitem (self : PrecomputedFeatureDataset) (idx : nat)
  : option (ndarray * nat) :=
  match nth_error (features self) idx, nth_error (labels self) idx with
  | Some feature, Some label =>
      let feature :=
        if length (shape feature) =? 2 then newaxis feature else feature in
      Some (feature, label)
  | _, _ => None
  end.

End Dataset.

(* ================================================================== *)
(** * CRNN model ([PrecomputedFeatureCRNN])                            *)
(* ================================================================== *)

Module CRNN.

(** ** Shapes

    Every layer is read as the function it induces on tensor shapes,
    following the shape rules of the PyTorch layer; [None] stands for the
    error PyTorch raises on an incompatible shape.  Values, batch
    statistics and dropout masks are outside this part of the model.

    The batch normalisation layers depend on the module's mode
    ([model.train()] / [model.eval()], both used by the training loop):
    in training mode they raise [ValueError] ("Expected more than 1 value
    per channel when training") on an input with a single value per
    channel. *)

Definition shape := list nat.

(** [nn.Conv2d(cin, cout, kernel_size, padding)], stride 1 *)
Definition Conv2d (cin cout kernel_size padding : nat) (x : shape)
  : option shape :=
  match x with
  | [b; c; h; w] =>
      if (c =? cin) && (kernel_size <=? h + 2 * padding)
         && (kernel_size <=? w + 2 * padding)
      then Some [b; cout; h + 2 * padding - kernel_size + 1;
                 w + 2 * padding - kernel_size + 1]
      else None
  | _ => None
  end.

Definition BatchNorm2d (training : bool) (num_features : nat) (x : shape)
  : option shape :=
  match x with
  | [b; c; h; w] =>
      if (c =? num_features) && negb (training && (b * (h * w) =? 1))
      then Some x else None
  | _ => None
  end.

Definition ReLU (x : shape) : option shape := Some x.
Definition Tanh (x : shape) : option shape := Some x.
Definition Dropout (x : shape) : option shape := Some x.

(** [nn.MaxPool2d(kernel_size, stride)] *)
Definition MaxPool2d (kernel_size stride : nat) (x : shape) : option shape :=
  match x with
  | [b; c; h; w] =>
      if (kernel_size <=? h) && (kernel_size <=? w)
      then Some [b; c; (h - kernel_size) / stride + 1;
                 (w - kernel_size) / stride + 1]
      else None
  | _ => None
  end.

(** [nn.Linear(in_features, out_features)] acts on the last axis. *)
Fixpoint Linear (in_features out_features : nat) (x : shape) : option shape :=
  match x with
  | [] => None
  | [d] => if d =? in_features then Some [out_features] else None
  | d :: x' => option_map (cons d) (Linear in_features out_features x')
  end.

Definition BatchNorm1d (training : bool) (num_features : nat) (x : shape)
  : option shape :=
  match x with
  | [b; c] =>
      if (c =? num_features) && negb (training && (b =? 1))
      then Some x else None
  | [b; c; l] =>
      if (c =? num_features) && negb (training && (b * l =? 1))
      then Some x else None
  | _ => None
  end.

(** [nn.GRU(input_size, hidden_size, num_layers=2, batch_first=True,
    bidirectional=True)], first component of the result.  The constructor
    refuses a hidden size of 0 ("hidden_size must be greater than zero"),
    so no forward pass exists for it. *)
Definition GRU (input_size hidden_size : nat) (x : shape) : option shape :=
  match x with
  | [b; t; f] =>
      if (0 <? hidden_size) && (f =? input_size)
      then Some [b; t; 2 * hidden_size] else None
  | _ => None
  end.

Definition Sequential (layers : list (shape -> option shape)) (x : shape)
  : option shape :=
  fold_left (fun acc layer => acc ≫= layer) layers (Some x).

(** [x.permute(0, 3, 1, 2)] *)
Definition permute_0_3_1_2 (x : shape) : option shape :=
  match x with
  | [b; c; h; w] => Some [b; w; c; h]
  | _ => None
  end.

(** [x.reshape(d0, d1, -1)]: the last extent is inferred; PyTorch refuses
    when the known extents do not divide the number of elements or when
    that number is 0 (the inferred extent would be ambiguous). *)
Definition reshape_infer_last (d0 d1 : nat) (x : shape) : option shape :=
  let numel := fold_right Nat.mul 1 x in
  if (numel =? 0) || negb (numel mod (d0 * d1) =? 0) then None
  else Some [d0; d1; numel / (d0 * d1)].

(** [x.squeeze(-1)] *)
Fixpoint squeeze_last (x : shape) : shape :=
  match x with
  | [] => []
  | [d] => if d =? 1 then [] else [d]
  | d :: x' => d :: squeeze_last x'
  end.

(** [x.squeeze(1)] *)
Definition squeeze_1 (x : shape) : option shape :=
  match x with
  | d0 :: d1 :: x' => Some (if d1 =? 1 then d0 :: x' else x)
  | _ => None
  end.

(** [x.unsqueeze(1)] *)
Definition unsqueeze_1 (x : shape) : option shape :=
  match x with
  | d0 :: x' => Some (d0 :: 1 :: x')
  | [] => None
  end.

(** [F.softmax(x, dim=1)] *)
Definition softmax_dim_1 (x : shape) : option shape :=
  match x with
  | _ :: _ :: _ => Some x
  | _ => None
  end.

(** [torch.bmm(a, b)] *)
Definition bmm (a b : shape) : option shape :=
  match a, b with
  | [ba; n; m], [bb; m'; p] =>
      if (ba =? bb) && (m =? m') then Some [ba; n; p] else None
  | _, _ => None
  end.

Section Model.

Variable num_classes : nat.
Variable gru_hidden_size : nat.

(** [self.training]: [true] after [model.train()], [false] after
    [model.eval()]. *)
Variable training : bool.

Definition features : shape -> option shape :=
  Sequential
    [ Conv2d 1 64 3 1; BatchNorm2d training 64; ReLU; MaxPool2d 2 2; Dropout;
      Conv2d 64 128 3 1; BatchNorm2d training 128; ReLU; MaxPool2d 2 2;
      Dropout;
      Conv2d 128 256 3 1; BatchNorm2d training 256; ReLU; MaxPool2d 2 2;
      Dropout ].

Definition gru : shape -> option shape := GRU (16 * 256) gru_hidden_size.

Definition attention : shape -> option shape :=
  Sequential [ Linear (gru_hidden_size * 2) 64; Tanh; Linear 64 1 ].

Definition classifier : shape -> option shape :=
  Sequential
    [ Linear (gru_hidden_size * 2) 512; BatchNorm1d training 512; ReLU;
      Dropout; Linear 512 num_classes ].

(** [forward] *)
Definition forward (x : shape) : option shape :=
  batch_size ← head x;
  features ← features x;
  features ← permute_0_3_1_2 features;
  features ← reshape_infer_last batch_size (nth 1 features 0) features;
  gru_out ← gru features;
  attn_weights ← squeeze_last <$> attention gru_out;
  attn_weights ← softmax_dim_1 attn_weights ≫= unsqueeze_1;
  context ← bmm attn_weights gru_out ≫= squeeze_1;
  classifier context.

End Model.

(** ** Attention pooling of one example, over the reals

    Float arithmetic is idealised as real arithmetic.  [gru_out] is the
    list of per-step hidden vectors of one example; [scorer] is the learned
    linear-tanh-linear map to a scalar. *)

Definition Rsum (l : list R) : R := fold_right Rplus 0%R l.

(** [F.softmax] along the time axis *)
Definition softmax (scores : list R) : list R :=
  let z := Rsum (map exp scores) in
  map (fun s => (exp s / z)%R) scores.

(** Row [j] of the product of the 1 x T matrix [w] with the T x D matrix
    [m], as [torch.bmm] computes it for one example. *)
Definition bmm_row (D : nat) (w : list R) (m : list (list R)) : list R :=
  map (fun j => Rsum (map (fun wr => (fst wr * nth j (snd wr) 0)%R)
                          (combine w m)))
      (seq 0 D).

Definition attn_weights (scorer : list R -> R) (gru_out : list (list R))
  : list R :=
  softmax (map scorer gru_out).

Definition context (D : nat) (scorer : list R -> R)
    (gru_out : list (list R)) : list R :=
  bmm_row D (attn_weights scorer gru_out) gru_out.

(** Specification-level: the weighted sum of vectors, [sum_t w_t * h_t]. *)
Definition vadd (u v : list R) : list R :=
  map (fun p => (fst p + snd p)%R) (combine u v).
Definition vscale (a : R) (v : list R) : list R := map (Rmult a) v.
Definition weighted_sum (D : nat) (w : list R) (hs : list (list R))
  : list R :=
  fold_right (fun wh acc => vadd (vscale (fst wh) (snd wh)) acc)
             (repeat 0%R D) (combine w hs).

End CRNN.

(* ================================================================== *)
(** * Competition metric ([score])                                     *)
(* ================================================================== *)

Module Scoring.

(** ** Tables

    A pandas column is a typed vector; four NumPy kinds are modelled
    (boolean, integer, floating and [object] holding strings).  A table is
    the ordered list of its labelled columns; labels are taken to be
    unique, as they are in a table read from CSV. *)

Inductive column :=
| BoolCol (v : list bool)
| IntCol (v : list Z)
| FloatCol (v : list Q)
| ObjectCol (v : list string).

Inductive dtype := bool_ | int64 | float64 | object_.

Definition dtype_eqb (a b : dtype) : bool :=
  match a, b with
  | bool_, bool_ | int64, int64 | float64, float64 | object_, object_ => true
  | _, _ => false
  end.

Definition col_dtype (c : column) : dtype :=
  match c with
  | BoolCol _ => bool_
  | IntCol _ => int64
  | FloatCol _ => float64
  | ObjectCol _ => object_
  end.

Definition DataFrame := list (string * column).

(** [pandas.api.types.is_numeric_dtype]: subclasses of [np.number], and
    [np.bool_]. *)
Definition is_numeric_dtype (d : dtype) : bool :=
  match d with
  | object_ => false
  | _ => true
  end.

(** The dtype of [df.values]: the common type pandas finds for the column
    dtypes.  Equal dtypes are kept; booleans are never mixed with numbers
    (the result is [object]); anything with [object] is [object]; integers
    with floats give floats.  A table without columns yields an empty float
    array. *)
Definition find_common_type (types : list dtype) : dtype :=
  match types with
  | [] => float64
  | first :: _ =>
      if forallb (dtype_eqb first) types then first
      else if existsb (dtype_eqb object_) types then object_
      else if existsb (dtype_eqb bool_) types then object_
      else float64
  end.

Definition values_dtype (df : DataFrame) : dtype :=
  find_common_type (map (fun p => col_dtype (snd p)) df).

(** [name in df.columns] *)
Definition has_column (name : string) (df : DataFrame) : bool :=
  existsb (fun p => String.eqb (fst p) name) df.

(** The table left by [del df[name]] *)
Definition drop_column (name : string) (df : DataFrame) : DataFrame :=
  List.filter (fun p => negb (String.eqb (fst p) name)) df.

(** [df[name]] *)
Fixpoint get_column (name : string) (df : DataFrame) : option column :=
  match df with
  | [] => None
  | (n, c) :: df' => if String.eqb n name then Some c else get_column name df'
  end.

(** [df[names]], the selected columns in the order of [names]; [None] is
    the [KeyError] of a missing label. *)
Fixpoint select (df : DataFrame) (names : list string)
  : option (list column) :=
  match names with
  | [] => Some []
  | n :: names' =>
      match get_column n df, select df names' with
      | Some c, Some cs => Some (c :: cs)
      | _, _ => None
      end
  end.

Definition Qsum (l : list Q) : Q := fold_right Qplus 0%Q l.

(** One entry of [df.sum(axis=0)] compared with [> 0].  Booleans count as
    0/1.  The sum of a non-empty string column is a string, which the
    comparison rejects ([None], a [TypeError]).  Sums are exact here;
    on 0/1 indicator columns the floating-point sum is exact as well. *)
Definition column_sum_positive (c : column) : option bool :=
  match c with
  | BoolCol v => Some (Qgt_bool (Qsum (map (fun b : bool => if b then 1%Q else 0%Q) v)) 0)
  | IntCol v => Some (Qgt_bool (Qsum (map inject_Z v)) 0)
  | FloatCol v => Some (Qgt_bool (Qsum v) 0)
  | ObjectCol [] => Some false
  | ObjectCol _ => None
  end.

(** [list(solution_sums[solution_sums > 0].index.values)] *)
Fixpoint scored_columns (solution : DataFrame) : option (list string) :=
  match solution with
  | [] => Some []
  | (n, c) :: solution' =>
      match column_sum_positive c, scored_columns solution' with
      | Some pos, Some rest => Some (if pos : bool then n :: rest else rest)
      | _, _ => None
      end
  end.

(** ** The function, over a store of tables

    The arguments are references to the caller's tables: [del] acts on
    the shared objects. *)

Abbreviation loc := nat.

Section Score.

(** Exceptions escaping the external metric call *)
Variable metric_exn : Type.

Inductive exn :=
| KeyError
| ParticipantVisibleError
| AssertionError
| TypeError
| DanglingReference
| MetricError (e : metric_exn).

Inductive outcome :=
| Value (score : Q)
| Raise (e : exn).

(** [kaggle_metric_utilities.safe_call_score(sklearn.metrics.roc_auc_score,
    y_true, y_score, average='macro')] on the selected columns *)
Variable safe_call_score_roc_auc_macro :
  list column -> list column -> Q + metric_exn.

(** [del df[name]] on the table stored at [df] *)
Definition del_column (df : loc) (name : string) (h : gmap nat DataFrame)
  : exn + gmap nat DataFrame :=
  match h !! df with
  | None => inl DanglingReference
  | Some t =>
      if has_column name t then inr (<[df := drop_column name t]> h)
      else inl KeyError
  end.

(** The statements after the two deletions, on the tables as they then
    are. *)
Definition score_body (solution submission : DataFrame) : outcome :=
  if negb (is_numeric_dtype (values_dtype submission)) then
    Raise ParticipantVisibleError
  else
    match scored_columns solution with
    | None => Raise TypeError
    | Some scored =>
        if length scored =? 0 then Raise AssertionError
        else
          match select solution scored, select submission scored with
          | Some y_true, Some y_score =>
              match safe_call_score_roc_auc_macro y_true y_score with
              | inl v => Value v
              | inr e => Raise (MetricError e)
              end
          | _, _ => Raise KeyError
          end
    end.

(** [score(solution, submission, row_id_column_name)]: the store after
    the call and the value returned or exception raised. *)
Definition score (solution submission : loc) (row_id_column_name : string)
    (h : gmap nat DataFrame) : gmap nat DataFrame * outcome :=
  match del_column solution row_id_column_name h with
  | inl e => (h, Raise e)
  | inr h1 =>
      match del_column submission row_id_column_name h1 with
      | inl e => (h1, Raise e)
      | inr h2 =>
          match h2 !! solution, h2 !! submission with
          | Some sol, Some sub => (h2, score_body sol sub)
          | _, _ => (h2, Raise DanglingReference)
          end
      end
  end.

(** The columns the code reports in [bad_dtypes]: those that are not
    numeric on their own. *)
Definition bad_dtypes (sub : DataFrame) : list (string * dtype) :=
  map (fun p => (fst p, col_dtype (snd p)))
      (List.filter (fun p => negb (is_numeric_dtype (col_dtype (snd p)))) sub).

End Score.

Arguments KeyError {metric_exn}.
Arguments ParticipantVisibleError {metric_exn}.
Arguments AssertionError {metric_exn}.
Arguments TypeError {metric_exn}.
Arguments DanglingReference {metric_exn}.
Arguments MetricError {metric_exn}.
Arguments Value {metric_exn}.
Arguments Raise {metric_exn}.
Arguments del_column {metric_exn}.
Arguments score_body {metric_exn}.
Arguments score {metric_exn}.

(** ** Specification-level vocabulary *)

(** Entry values of a numeric column as rationals. *)
Definition column_values (c : column) : option (list Q) :=
  match c with
  | BoolCol v => Some (map (fun b : bool => if b then 1%Q else 0%Q) v)
  | IntCol v => Some (map inject_Z v)
  | FloatCol v => Some v
  | ObjectCol _ => None
  end.

(** A ground-truth indicator column: numeric, every entry 0 or 1. *)
Definition indicator (c : column) : Prop :=
  exists vs, column_values c = Some vs /\
             Forall (fun v => v == 0 \/ v == 1)%Q vs.

(** The column has at least one positive row. *)
Definition has_positive (c : column) : Prop :=
  exists vs, column_values c = Some vs /\ Exists (fun v => 0 < v)%Q vs.

(** ** Sample tables *)

Definition sample_solution : DataFrame :=
  [ ("row_id", IntCol [1; 2; 3]%Z);
    ("a", IntCol [1; 0; 0]%Z);
    ("b", IntCol [0; 0; 0]%Z);
    ("c", IntCol [0; 1; 1]%Z) ]%string.

Definition sample_submission : DataFrame :=
  [ ("row_id", IntCol [1; 2; 3]%Z);
    ("a", FloatCol [9 # 10; 1 # 5; 1 # 10]%Q);
    ("b", FloatCol [1 # 3; 1 # 3; 1 # 3]%Q);
    ("c", FloatCol [1 # 10; 4 # 5; 7 # 10]%Q) ]%string.

(** A submission whose first score column holds booleans, next to float
    columns. *)
Definition bool_float_submission : DataFrame :=
  [ ("row_id", IntCol [1; 2; 3]%Z);
    ("a", BoolCol [true; false; false]);
    ("b", FloatCol [1 # 3; 1 # 3; 1 # 3]%Q);
    ("c", FloatCol [1 # 10; 4 # 5; 7 # 10]%Q) ]%string.

(** The caller's store: the solution at reference 0, a submission at 1. *)
Definition sample_store (submission : DataFrame) : gmap nat DataFrame :=
  <[1 := submission]> (<[0 := sample_solution]> ∅).

(** A metric that never fails and answers 1/2. *)
Definition half_metric (y_true y_score : list column) : Q + Empty_set :=
  inl (1 # 2)%Q.

End Scoring.

(* ================================================================== *)
(** * Further parts of the notebook                                    *)
(* ================================================================== *)

(** ** Running totals of one pass over a loader

    The training phase and the validation phase keep the same three
    totals and divide them at the end of the pass. *)

Module EpochStats.

(** What one iteration sees: [loss.item()], the row-wise arg-max of the
    outputs (one per input of the batch), and the labels. *)
Record batch := {
  loss_item : Q;
  predicted : list nat;
  y : list nat
}.

Record totals := {
  running_loss : Q;
  correct : nat;
  total : nat
}.

(** [predicted.eq(y).sum().item()] *)
Definition eq_sum (predicted y : list nat) : nat :=
  length (List.filter (fun p => fst p =? snd p) (combine predicted y)).

(** The three [+=] statements; [x.size(0)] is the number of output rows. *)
Definition add_batch (t : totals) (b : batch) : totals :=
  {| running_loss :=
       (running_loss t
        + loss_item b * inject_Z (Z.of_nat (length (predicted b))))%Q;
     total := total t + length (y b);
     correct := correct t + eq_sum (predicted b) (y b) |}.

Definition accumulate (loader : list batch) : totals :=
  fold_left add_batch loader
            {| running_loss := 0%Q; correct := 0; total := 0 |}.

(** The labels and the correct predictions of each batch, counted. *)
Definition batch_sizes (loader : list batch) : list nat :=
  map (fun b => length (y b)) loader.

Definition batch_hits (loader : list batch) : list nat :=
  map (fun b => eq_sum (predicted b) (y b)) loader.

(** [(running_loss / total, correct / total)]; [None] is the
    [ZeroDivisionError] of a pass that saw no example. *)
Definition epoch_metrics (loader : list batch) : option (Q * Q) :=
  let t := accumulate loader in
  if total t =? 0 then None
  else Some ((running_loss t / inject_Z (Z.of_nat (total t)))%Q,
             (inject_Z (Z.of_nat (correct t))
              / inject_Z (Z.of_nat (total t)))%Q).

End EpochStats.

(** ** Targets collected for the validation AUC *)

Module ValidationTargets.

(** One row of [F.one_hot(y, num_classes)]; PyTorch refuses a class value
    that is not smaller than [num_classes]. *)
Definition one_hot (num_classes : nat) (c : nat) : option (list nat) :=
  if c <? num_classes
  then Some (map (fun j => if j =? c then 1 else 0) (seq 0 num_classes))
  else None.

(** The one-hot row of class [c] among [C] classes. *)
Definition row (C c : nat) : list nat :=
  map (fun j => if j =? c then 1 else 0) (seq 0 C).

(** [F.one_hot(y, num_classes=outputs.size(1))] for the labels of a batch *)
Fixpoint one_hot_rows (num_classes : nat) (y : list nat)
  : option (list (list nat)) :=
  match y with
  | [] => Some []
  | c :: y' =>
      match one_hot num_classes c, one_hot_rows num_classes y' with
      | Some r, Some rs => Some (r :: rs)
      | _, _ => None
      end
  end.

(** The rows appended to [all_targets] over the pass, batch after batch,
    as [np.concatenate] joins them. *)
Fixpoint all_targets (num_classes : nat) (batches : list (list nat))
  : option (list (list nat)) :=
  match batches with
  | [] => Some []
  | y :: batches' =>
      match one_hot_rows num_classes y, all_targets num_classes batches' with
      | Some rs, Some rest => Some (rs ++ rest)
      | _, _ => None
      end
  end.

(** [all_targets.sum(0)] *)
Definition sum_axis_0 (num_classes : nat) (rows : list (list nat))
  : list nat :=
  map (fun j => list_sum (map (fun r => nth j r 0) rows))
      (seq 0 num_classes).

(** [pos = (all_targets.sum(0) > 0)] *)
Definition pos (num_classes : nat) (rows : list (list nat)) : list bool :=
  map (fun s => 0 <? s) (sum_axis_0 num_classes rows).

End ValidationTargets.

(** ** Class count and label names *)

Module Labels.

(** [np.unique(y)]: the distinct values of [y] in increasing order. *)
Definition np_unique (y : list nat) : list nat :=
  match y with
  | [] => []
  | _ => List.filter (fun c => 0 <? count_occ Nat.eq_dec y c)
                     (seq 0 (S (list_max y)))
  end.

(** [num_classes = len(np.unique(y))] *)
Definition num_classes (y : list nat) : nat := length (np_unique y).

(** [{i: f"class_{i}" for i in range(num_classes)}] *)
Definition label_mapping (num_classes : nat) : gmap nat string :=
  list_to_map (map (fun i => (i, "class_" +:+ pretty i)) (seq 0 num_classes)).

(** The diagnostics printed by the filtering cell:
    [np.sum(label_counts == 1)] and [np.sum(~valid_indices)]. *)
Definition n_singleton_classes (label_counts : list nat) : nat :=
  length (List.filter (Nat.eqb 1) label_counts).

Definition n_removed (valid_indices : list bool) : nat :=
  length (List.filter negb valid_indices).

End Labels.

(** ** Cells and global names

    The cells share the kernel's global names.  A name is bound to [None],
    to a feature array or to a label array, or it is not bound at all. *)

Module Notebook.

Inductive value :=
| VNone
| VFeatures (X : list Dataset.ndarray)
| VLabels (y : list nat).

(** The archive at [PRECOMPUTED_FEATURES_PATH]: absent, not loadable, or
    an [.npz] file with the arrays it has under ['data'] and ['labels']. *)
Inductive file :=
| Missing
| Unreadable
| Npz (data : option (list Dataset.ndarray)) (labels : option (list nat)).

(** [load_precomputed_features]: both results or [(None, None)]. *)
Definition load_precomputed_features (f : file)
  : option (list Dataset.ndarray) * option (list nat) :=
  match f with
  | Missing => (None, None)
  | Unreadable => (None, None)
  | Npz (Some X) (Some y) => (Some X, Some y)
  | Npz _ _ => (None, None)
  end.

Definition of_features (X : option (list Dataset.ndarray)) : value :=
  match X with Some X => VFeatures X | None => VNone end.

Definition of_labels (y : option (list nat)) : value :=
  match y with Some y => VLabels y | None => VNone end.

Inductive exn := NameError | IndexError | ValueError.

Section Cells.

(** [train_test_split(X, y, test_size=0.2, random_state=42, stratify=y)]:
    the four arrays, or [None] when scikit-learn refuses the split. *)
Variable train_test_split :
  list Dataset.ndarray -> list nat ->
  option (list Dataset.ndarray * list Dataset.ndarray * list nat * list nat).

(** The data-loading cell: the names bound when it ends, and the
    exception that ended it, if any. *)
Definition load_cell (f : file) (g : gmap string value)
  : gmap string value * option exn :=
  let (X, y) := load_precomputed_features f in
  let g := <["y" := of_labels y]> (<["X" := of_features X]> g) in
  match X, y with
  | Some X, Some y =>
      match Filtering.filter_singletons X y with
      | None => (g, Some IndexError)
      | Some (X, y) =>
          let g := <["y" := VLabels y]> (<["X" := VFeatures X]> g) in
          match train_test_split X y with
          | None => (g, Some ValueError)
          | Some (X_train, X_val, y_train, y_val) =>
              (<["y_val" := VLabels y_val]>
                 (<["y_train" := VLabels y_train]>
                    (<["X_val" := VFeatures X_val]>
                       (<["X_train" := VFeatures X_train]> g))), None)
          end
      end
  | _, _ => (g, None)
  end.

Variable params : Type.
Variable phases : nat -> option (Training.epoch_obs params).
Variable loadable : Training.checkpoint params -> bool.

Inductive cell_outcome :=
| CellRaised (e : exn)
| Called (r : Training.outcome params).

(** The training cell, [train_precomputed_crnn(y)]: the argument and the
    two names tested on entry are looked up among the globals. *)
Definition train_cell (g : gmap string value)
    (fs0 : option (Training.checkpoint params)) : cell_outcome :=
  match g !! "y" with
  | None => CellRaised NameError
  | Some _ =>
      match g !! "X_train" with
      | None => CellRaised NameError
      | Some X_train =>
          match X_train with
          | VNone =>
              Called (Training.train_precomputed_crnn phases loadable false
                        fs0)
          | _ =>
              match g !! "y_train" with
              | None => CellRaised NameError
              | Some y_train =>
                  match y_train with
                  | VNone =>
                      Called (Training.train_precomputed_crnn phases loadable
                                false fs0)
                  | _ =>
                      Called (Training.train_precomputed_crnn phases loadable
                                true fs0)
                  end
              end
          end
      end
  end.

End Cells.

Arguments train_cell {params}.
Arguments CellRaised {params}.
Arguments Called {params}.

End Notebook.

(** ** Vocabulary for the checkpoint log *)

Module TrainingAux.
Import Training.

(** What the epochs of a run delivered; [d] stands in for the epochs that
    raised. *)
Definition observed {params : Type} (d : epoch_obs params)
    (phases : nat -> option (epoch_obs params)) : nat -> epoch_obs params :=
  fun epoch => match phases epoch with Some o => o | None => d end.

(** The last checkpoint written in this run, if any. *)
Definition last_save {params : Type} (st : loop_state params)
  : option (checkpoint params) :=
  List.last (map Some (saves st)) None.

(** Number of epochs up to and including the last checkpointed one. *)
Definition covered {params : Type} (st : loop_state params) : nat :=
  match last_save st with
  | None => 0
  | Some ck => S (ck_epoch ck)
  end.

(** A later checkpoint belongs to a later epoch and a higher AUC. *)
Definition improves_over {params : Type} (a b : checkpoint params) : Prop :=
  ck_epoch a < ck_epoch b /\ (ck_val_auc a < ck_val_auc b)%Q.

End TrainingAux.

(** ** More sample tables for the metric *)

Module ScoringSamples.
Import Scoring.

(** A submission whose first score column holds text. *)
Definition text_submission : DataFrame :=
  [ ("row_id", IntCol [1; 2; 3]%Z);
    ("a", ObjectCol ["high"; "low"; "low"]%string);
    ("b", FloatCol [1 # 3; 1 # 3; 1 # 3]%Q);
    ("c", FloatCol [1 # 10; 4 # 5; 7 # 10]%Q) ]%string.

(** The sample submission with its first two columns exchanged. *)
Definition reordered_submission : DataFrame :=
  [ ("a", FloatCol [9 # 10; 1 # 5; 1 # 10]%Q);
    ("row_id", IntCol [1; 2; 3]%Z);
    ("b", FloatCol [1 # 3; 1 # 3; 1 # 3]%Q);
    ("c", FloatCol [1 # 10; 4 # 5; 7 # 10]%Q) ]%string.

(** The sample submission without the column of class [c]. *)
Definition short_submission : DataFrame :=
  [ ("row_id", IntCol [1; 2; 3]%Z);
    ("a", FloatCol [9 # 10; 1 # 5; 1 # 10]%Q);
    ("b", FloatCol [1 # 3; 1 # 3; 1 # 3]%Q) ]%string.

(** The sample submission without the identifier column. *)
Definition anonymous_submission : DataFrame :=
  [ ("a", FloatCol [9 # 10; 1 # 5; 1 # 10]%Q);
    ("b", FloatCol [1 # 3; 1 # 3; 1 # 3]%Q);
    ("c", FloatCol [1 # 10; 4 # 5; 7 # 10]%Q) ]%string.


End ScoringSamples.

(* ================================================================== *)
(** * Facts about the training loop                                    *)
(* ================================================================== *)

Lemma Qgt_bool_iff (a b : Q) : Qgt_bool a b = true <-> (b < a)%Q.
Proof.
  unfold Qgt_bool. rewrite negb_true_iff.
  split; intro H.
  - apply Qnot_le_lt. intro Hle. apply Qle_bool_iff in Hle. congruence.
  - destruct (Qle_bool a b) eqn:E; [|reflexivity].
    apply Qle_bool_iff in E. exfalso. exact (Qlt_not_le _ _ H E).
Qed.

Lemma Qgt_bool_false_iff (a b : Q) : Qgt_bool a b = false <-> (a <= b)%Q.
Proof.
  unfold Qgt_bool. rewrite negb_false_iff. apply Qle_bool_iff.
Qed.

Module TrainingFacts.
Import Training TrainingAux.

Section Facts.

Variable params : Type.
Variable obs : nat -> epoch_obs params.
Variable fs0 : option (checkpoint params).

Lemma for_epochs_app (l1 l2 : list nat) (st : loop_state params) :
  for_epochs obs (l1 ++ l2) st =
  match for_epochs obs l1 st with
  | (st', Break) => (st', Break)
  | (st', Continue) => for_epochs obs l2 st'
  end.
Proof.
  revert st. induction l1 as [|e l1 IH]; intro st; simpl.
  - reflexivity.
  - destruct (epoch_body obs e st) as [st' [|]]; [apply IH | reflexivity].
Qed.

Lemma run_S (k : nat) :
  run obs fs0 (S k) =
  match run obs fs0 k with
  | (st, Break) => (st, Break)
  | (st, Continue) => epoch_body obs k st
  end.
Proof.
  unfold run. rewrite seq_S, for_epochs_app. simpl.
  destruct (for_epochs obs (seq 0 k) (init fs0)) as [st [|]]; [|reflexivity].
  destruct (epoch_body obs k st) as [st' [|]]; reflexivity.
Qed.

(** The fields one iteration leaves behind, in both branches. *)
Lemma epoch_body_cases (k : nat) (st : loop_state params) :
  let v := epoch_val_auc obs k st in
  let st' := fst (epoch_body obs k st) in
  h_val_auc (hist st') = h_val_auc (hist st) ++ [v] /\
  sched st' = sched st ++ [v] /\
  ((Qgt_bool v (best_auc st) = true /\
    best_auc st' = v /\ wait st' = 0 /\
    saves st' = saves st ++ [Build_checkpoint params (ob_params (obs k)) k v] /\
    best_file st' = Some (Build_checkpoint params (ob_params (obs k)) k v) /\
    snd (epoch_body obs k st) = Continue)
   \/
   (Qgt_bool v (best_auc st) = false /\
    best_auc st' = best_auc st /\ wait st' = S (wait st) /\
    saves st' = saves st /\ best_file st' = best_file st /\
    snd (epoch_body obs k st) =
      if patience <=? S (wait st) then Break else Continue)).
Proof.
  unfold epoch_body. cbv zeta.
  destruct (Qgt_bool (epoch_val_auc obs k st) (best_auc st)) eqn:E; simpl;
    (split; [reflexivity|]); (split; [reflexivity|]).
  - left. repeat split; reflexivity.
  - right. repeat split; reflexivity.
Qed.

Lemma gt_best_improves (best v : Q) (aucs : list Q) :
  best_ok best aucs -> Qgt_bool v best = improves_on aucs v.
Proof.
  intros [Hub Hin]. apply eq_true_iff_eq. unfold improves_on.
  rewrite forallb_forall, Qgt_bool_iff. split.
  - intros H b Hb. apply Qgt_bool_iff.
    rewrite Forall_forall in Hub. eapply Qle_lt_trans; eauto.
  - intros H. apply Qgt_bool_iff. apply H. exact Hin.
Qed.

Lemma improves_on_iff (aucs : list Q) (v : Q) :
  improves_on aucs v = true <->
  (0 < v)%Q /\ Forall (fun b => (b < v)%Q) aucs.
Proof.
  unfold improves_on. rewrite forallb_forall. split.
  - intro H. split.
    + apply Qgt_bool_iff, H. now left.
    + apply Forall_forall. intros b Hb. apply Qgt_bool_iff, H. now right.
  - intros [H0 H] b [<-|Hb]; apply Qgt_bool_iff; auto.
    rewrite Forall_forall in H. auto.
Qed.

Lemma best_ok_step (best v : Q) (aucs : list Q) :
  best_ok best aucs ->
  best_ok (if Qgt_bool v best then v else best) (aucs ++ [v]).
Proof.
  intros [Hub Hin]. destruct (Qgt_bool v best) eqn:E.
  - apply Qgt_bool_iff in E. split.
    + rewrite app_comm_cons. apply Forall_app. split.
      * eapply Forall_impl; [|exact Hub]. simpl. intros b Hb.
        apply Qlt_le_weak. eapply Qle_lt_trans; eauto.
      * constructor; [apply Qle_refl | constructor].
    + right. apply in_or_app. right. now left.
  - apply Qgt_bool_false_iff in E. split.
    + rewrite app_comm_cons. apply Forall_app. split; [exact Hub|].
      constructor; [exact E | constructor].
    + rewrite app_comm_cons. apply in_or_app. now left.
Qed.

Lemma improved_app (aucs : list Q) (v : Q) (e : nat) :
  e < length aucs -> improved (aucs ++ [v]) e = improved aucs e.
Proof.
  intro He. unfold improved.
  rewrite firstn_app, app_nth1 by exact He.
  replace (e - length aucs) with 0 by lia.
  simpl. now rewrite app_nil_r.
Qed.

Lemma streak_snoc (aucs : list Q) (v : Q) :
  streak (aucs ++ [v]) =
  if improves_on aucs v then 0 else S (streak aucs).
Proof.
  unfold streak. rewrite length_app. simpl.
  rewrite Nat.add_1_r, seq_S, map_app, rev_app_distr. simpl.
  assert (Hlast : improved (aucs ++ [v]) (length aucs) = improves_on aucs v).
  { unfold improved. rewrite firstn_app, Nat.sub_diag, firstn_all.
    simpl. rewrite app_nil_r, app_nth2, Nat.sub_diag by lia. reflexivity. }
  rewrite Hlast.
  destruct (improves_on aucs v); [reflexivity|].
  do 2 f_equal. f_equal. apply map_ext_in. intros e He.
  apply in_seq in He. apply improved_app. lia.
Qed.

Lemma last_map_Some_snoc {A : Type} (l : list A) (x : A) (d : option A) :
  List.last (map Some (l ++ [x])) d = Some x.
Proof. rewrite map_app. simpl. apply last_last. Qed.

(** What holds of the loop after the first [k] values of the range. *)
Lemma run_inv (k : nat) :
  let st := fst (run obs fs0 k) in
  let aucs := h_val_auc (hist st) in
  length aucs <= k /\
  sched st = aucs /\
  wait st = streak aucs /\
  best_ok (best_auc st) aucs /\
  best_file st = List.last (map Some (saves st)) fs0 /\
  (forall e, S e < length aucs -> streak (firstn (S e) aucs) < patience) /\
  Forall (fun ck => In (ck_val_auc ck) aucs /\ (0 < ck_val_auc ck)%Q)
         (saves st) /\
  match snd (run obs fs0 k) with
  | Continue => length aucs = k /\ wait st < patience
  | Break => 1 <= length aucs /\ wait st = patience
  end.
Proof.
  induction k as [|k IH].
  - cbn. repeat split; auto; try (unfold patience; lia).
    + repeat constructor. apply Qle_refl.
    + now left.
  - rewrite run_S. destruct (run obs fs0 k) as [st c]. simpl in IH.
    destruct IH as (Hlen & Hs & Hw & Hb & Hf & Hpre & Hsv & Hc).
    destruct c; simpl.
    2:{ refine (conj _ (conj Hs (conj Hw (conj Hb (conj Hf
                 (conj Hpre (conj Hsv Hc))))))).
        lia. }
    destruct Hc as [Hk Hlt].
    pose proof (epoch_body_cases k st) as Hcase. cbv zeta in Hcase.
    destruct (epoch_body obs k st) as [st' c']. cbn [fst snd] in *.
    set (v := epoch_val_auc obs k st) in *.
    destruct Hcase as (Ha & Hsch & Hcase).
    assert (Hpre' : forall e, S e < length (h_val_auc (hist st')) ->
              streak (firstn (S e) (h_val_auc (hist st'))) < patience).
    { intros e He. rewrite Ha in *. rewrite length_app in He. simpl in He.
      rewrite firstn_app.
      replace (S e - length (h_val_auc (hist st))) with 0 by lia.
      simpl. rewrite app_nil_r.
      destruct (Nat.eq_dec (S e) (length (h_val_auc (hist st)))) as [E|E].
      - rewrite E, firstn_all. lia.
      - apply Hpre. lia. }
    assert (Hlen' : length (h_val_auc (hist st')) = S k).
    { rewrite Ha, length_app. simpl. lia. }
    assert (Hsv' : Forall (fun ck => In (ck_val_auc ck) (h_val_auc (hist st'))
                                     /\ (0 < ck_val_auc ck)%Q) (saves st)).
    { eapply Forall_impl; [|exact Hsv]. cbv beta. intros ck [Hin Hpos].
      split; [rewrite Ha; apply in_or_app; now left | exact Hpos]. }
    pose proof (gt_best_improves (best_auc st) v _ Hb) as Himp.
    pose proof (best_ok_step (best_auc st) v _ Hb) as Hb'.
    destruct Hcase as [(Hgt & Hbest & Hwait & Hsav & Hfile & Hctl)
                      |(Hgt & Hbest & Hwait & Hsav & Hfile & Hctl)];
      rewrite Hgt in Hb'; rewrite Hgt in Himp.
    + repeat split; try lia.
      * rewrite Hsch, Ha, Hs. reflexivity.
      * rewrite Ha, streak_snoc, <- Himp. exact Hwait.
      * rewrite Hbest, Ha. apply Hb'.
      * rewrite Hbest, Ha. apply Hb'.
      * rewrite Hfile, Hsav. symmetry. apply last_map_Some_snoc.
      * exact Hpre'.
      * rewrite Hsav. apply Forall_app. split; [exact Hsv'|].
        constructor; [|constructor]. cbn [ck_val_auc]. split.
        -- rewrite Ha. apply in_or_app. right. now left.
        -- apply Qgt_bool_iff in Hgt. destruct Hb as [Hub _].
           inversion Hub; subst. eapply Qle_lt_trans; eauto.
      * rewrite Hctl. split; [lia | rewrite Hwait; unfold patience; lia].
    + repeat split; try lia.
      * rewrite Hsch, Ha, Hs. reflexivity.
      * rewrite Ha, streak_snoc, <- Himp, Hwait, Hw. reflexivity.
      * rewrite Hbest, Ha. apply Hb'.
      * rewrite Hbest, Ha. apply Hb'.
      * rewrite Hfile, Hsav. exact Hf.
      * exact Hpre'.
      * rewrite Hsav. exact Hsv'.
      * rewrite Hctl.
        destruct (patience <=? S (wait st)) eqn:E.
        -- apply Nat.leb_le in E. lia.
        -- apply Nat.leb_gt in E. lia.
Qed.

Lemma run_continue_inv (k : nat) (st : loop_state params) :
  run obs fs0 k = (st, Continue) ->
  length (h_val_auc (hist st)) = k /\
  best_ok (best_auc st) (h_val_auc (hist st)).
Proof.
  intro H. pose proof (run_inv k) as Hinv. rewrite H in Hinv.
  cbn [fst snd] in Hinv. tauto.
Qed.

Lemma not_persisted_same_saves (st st' : loop_state params) :
  saves st' = saves st -> ~ persisted st st'.
Proof.
  intros E [ck Hck]. rewrite E in Hck.
  apply (f_equal (@length _)) in Hck. rewrite length_app in Hck.
  simpl in Hck. lia.
Qed.

Lemma last_in {A : Type} (l : list A) (d : A) : In (List.last l d) (d :: l).
Proof.
  induction l as [|a l IH]; [now left|].
  destruct l as [|b l]; [right; now left|].
  change (List.last (a :: b :: l) d) with (List.last (b :: l) d).
  destruct IH as [E|IH]; [left; exact E | right; right; exact IH].
Qed.

Lemma nth_error_last {A : Type} (l : list A) (d : A) (j : nat) :
  length l = S j -> nth_error l j = Some (List.last l d).
Proof.
  revert j. induction l as [|a l IH]; intros j Hl; [discriminate|].
  destruct l as [|b l].
  - simpl in Hl. replace j with 0 by lia. reflexivity.
  - destruct j as [|j]; [simpl in Hl; lia|].
    change (List.last (a :: b :: l) d) with (List.last (b :: l) d).
    simpl. apply IH. simpl in *. lia.
Qed.

(** C1 (amended): in an executed epoch [k] the best-model checkpoint
    (parameters, epoch index, validation AUC) is written if and only if
    the epoch's validation AUC strictly exceeds the initial best value 0
    and the validation AUC of every previous epoch; when it is written
    the stall counter becomes 0, otherwise the file is left alone and the
    stall counter is incremented. *)
Theorem checkpoint_iff_strict_improvement (k : nat) (st : loop_state params) :
  run obs fs0 k = (st, Continue) ->
  k < num_epochs ->
  let v := epoch_val_auc obs k st in
  let st' := fst (epoch_body obs k st) in
  let ck := Build_checkpoint params (ob_params (obs k)) k v in
  length (h_val_auc (hist st)) = k /\
  (persisted st st' <->
     (0 < v)%Q /\ Forall (fun b => (b < v)%Q) (h_val_auc (hist st))) /\
  (persisted st st' ->
     saves st' = saves st ++ [ck] /\ best_file st' = Some ck /\
     wait st' = 0) /\
  (~ persisted st st' ->
     saves st' = saves st /\ best_file st' = best_file st /\
     wait st' = S (wait st)).
Proof.
  intros Hrun _ v st' ck.
  destruct (run_continue_inv k st Hrun) as [Hlen Hb].
  pose proof (gt_best_improves (best_auc st) v _ Hb) as Himp.
  pose proof (improves_on_iff (h_val_auc (hist st)) v) as Hiff.
  destruct (epoch_body_cases k st) as (_ & _ & Hcase). fold v st' ck in Hcase.
  split; [exact Hlen|].
  destruct Hcase as [(Hgt & _ & Hwait & Hsav & Hfile & _)
                    |(Hgt & _ & Hwait & Hsav & Hfile & _)].
  - assert (Hp : persisted st st') by (exists ck; exact Hsav).
    split; [|split]; [| tauto | tauto].
    split; [intros _|intros _; exact Hp].
    apply Hiff. congruence.
  - pose proof (not_persisted_same_saves st st' Hsav) as Hnp.
    split; [|split]; [| tauto | tauto].
    split; [tauto|]. intro H. apply Hiff in H. congruence.
Qed.


(** C5 (amended): an epoch whose AUC computation raises is completed
    like any other.  Its validation AUC is the previous epoch's value,
    or 0 in the first epoch, where there is none; that value is appended
    to the history, passed to the scheduler and compared with the best
    AUC for the checkpoint decision -- which it never beats, so that no
    checkpoint is written and the stall counter is incremented. *)
Theorem auc_failure_reuses_last_value (k : nat) (st : loop_state params) :
  run obs fs0 k = (st, Continue) ->
  k < num_epochs ->
  ob_auc (obs k) = None ->
  let v := epoch_val_auc obs k st in
  let st' := fst (epoch_body obs k st) in
  match k with
  | 0 => v = 0%Q
  | S j => nth_error (h_val_auc (hist st)) j = Some v
  end /\
  h_val_auc (hist st') = h_val_auc (hist st) ++ [v] /\
  sched st' = sched st ++ [v] /\
  (persisted st st' <-> (best_auc st < v)%Q) /\
  (v <= best_auc st)%Q /\
  saves st' = saves st /\ best_file st' = best_file st /\
  wait st' = S (wait st).
Proof.
  intros Hrun _ Hnone v st'.
  destruct (run_continue_inv k st Hrun) as [Hlen Hb].
  assert (Hv : v = List.last (h_val_auc (hist st)) 0%Q).
  { unfold v, epoch_val_auc. now rewrite Hnone. }
  assert (Hle : (v <= best_auc st)%Q).
  { destruct Hb as [Hub _]. rewrite Forall_forall in Hub.
    apply Hub. rewrite Hv. apply last_in. }
  destruct (epoch_body_cases k st) as (Ha & Hsch & Hcase). fold v st' in Ha, Hsch, Hcase.
  split.
  { destruct k as [|j].
    - rewrite Hv. destruct (h_val_auc (hist st)); [reflexivity|discriminate].
    - rewrite Hv. apply nth_error_last. exact Hlen. }
  split; [exact Ha|]. split; [exact Hsch|].
  destruct Hcase as [(Hgt & _)|(Hgt & _ & Hwait & Hsav & Hfile & _)].
  - apply Qgt_bool_iff in Hgt. exfalso. exact (Qlt_not_le _ _ Hgt Hle).
  - split; [|tauto].
    split.
    + intro Hp. exfalso. exact (not_persisted_same_saves st st' Hsav Hp).
    + intro Hlt. exfalso. exact (Qlt_not_le _ _ Hlt Hle).
Qed.

(** Without a recorded validation AUC above 0 the run writes no
    checkpoint, and the file at the checkpoint path is as it was before
    the run. *)
Lemma no_improvement_no_save :
  let final := fst (run obs fs0 num_epochs) in
  Forall (fun v => (v <= 0)%Q) (h_val_auc (hist final)) ->
  saves final = [] /\ best_file final = fs0.
Proof.
  intros final Hall.
  pose proof (run_inv num_epochs) as Hinv.
  change (fst (run obs fs0 num_epochs)) with final in Hinv.
  cbv zeta in Hinv.
  destruct Hinv as (_ & _ & _ & _ & Hf & _ & Hsv & _).
  assert (Hsaves : saves final = []).
  { destruct (saves final) as [|ck l]; [reflexivity|].
    inversion Hsv as [|? ? [Hin Hpos] _]; subst.
    rewrite Forall_forall in Hall. apply Hall in Hin.
    exfalso. exact (Qlt_not_le _ _ Hpos Hin). }
  split; [exact Hsaves|]. rewrite Hf, Hsaves. reflexivity.
Qed.

(** The case named in C10: when the AUC computation raises in every
    epoch, every recorded validation AUC is the default 0. *)
Lemma all_failures_record_zero (k : nat) :
  (forall e, ob_auc (obs e) = None) ->
  Forall (fun v => v = 0%Q) (h_val_auc (hist (fst (run obs fs0 k)))).
Proof.
  intro Hfail. induction k as [|k IH]; [constructor|].
  rewrite run_S. destruct (run obs fs0 k) as [st [|]]; [|exact IH].
  cbn [fst] in IH.
  destruct (epoch_body_cases k st) as (Ha & _). rewrite Ha.
  apply Forall_app. split; [exact IH|].
  constructor; [|constructor].
  unfold epoch_val_auc. rewrite Hfail.
  rewrite Forall_forall in IH.
  destruct (last_in (h_val_auc (hist st)) 0%Q) as [E|E]; [now rewrite <- E|].
  now apply IH.
Qed.

End Facts.

(** ** The function as a whole: epochs that may raise, and the reload *)

Section Raising.

Variable params : Type.
Variable phases : nat -> option (epoch_obs params).
Variable loadable : checkpoint params -> bool.
Variable fs0 : option (checkpoint params).

Lemma epoch_body_observed (d o : epoch_obs params) (epoch : nat)
    (st : loop_state params) :
  phases epoch = Some o ->
  epoch_body (fun _ => o) epoch st = epoch_body (observed d phases) epoch st.
Proof.
  intro E. unfold epoch_body, epoch_val_auc, observed. rewrite E. reflexivity.
Qed.

(** A loop that ends without an exception is a loop over the observations
    of its epochs, each of which delivered some. *)
Lemma for_epochs_raising_Some (d : epoch_obs params) (l : list nat)
    (st st' : loop_state params) (c : ctrl) :
  for_epochs_raising phases l st = Some (st', c) ->
  for_epochs (observed d phases) l st = (st', c) /\
  exists n, n <= length l /\
    length (h_val_auc (hist st')) = length (h_val_auc (hist st)) + n /\
    forall e, In e (firstn n l) -> phases e <> None.
Proof.
  revert st. induction l as [|e l IH]; intros st H.
  - cbn [for_epochs_raising] in H. injection H as <- <-.
    split; [reflexivity|]. exists 0. cbn [firstn length].
    split; [lia|]. split; [lia|]. intros e [].
  - cbn [for_epochs_raising] in H.
    destruct (phases e) as [o|] eqn:Ep; [|discriminate].
    rewrite (epoch_body_observed d o e st Ep) in H.
    cbn [for_epochs].
    pose proof (epoch_body_cases params (observed d phases) e st) as [Ha _].
    destruct (epoch_body (observed d phases) e st) as [st1 [|]] eqn:Eb.
    + cbn [fst] in Ha. destruct (IH st1 H) as [Hrun (n & Hn & Hlen & Hph)].
      split; [exact Hrun|]. exists (S n). cbn [length firstn].
      split; [lia|]. split.
      * rewrite Hlen, Ha, length_app. cbn [length]. lia.
      * intros e' [<-|Hin]; [congruence | now apply Hph].
    + injection H as <- <-. cbn [fst] in Ha.
      split; [reflexivity|]. exists 1. cbn [length firstn].
      split; [lia|]. split.
      * rewrite Ha, length_app. cbn [length]. lia.
      * intros e' [<-|[]]. congruence.
Qed.

Lemma raising_run (final : loop_state params) (c : ctrl) :
  for_epochs_raising phases (seq 0 num_epochs) (init fs0) = Some (final, c) ->
  exists d,
    run (observed d phases) fs0 num_epochs = (final, c) /\
    forall e, e < length (h_val_auc (hist final)) ->
              phases e = Some (observed d phases e).
Proof.
  intro H.
  assert (Hd : exists d, phases 0 = Some d).
  { change (seq 0 num_epochs) with (0 :: seq 1 (num_epochs - 1)) in H.
    cbn [for_epochs_raising] in H.
    destruct (phases 0) as [d|]; [now exists d | discriminate]. }
  destruct Hd as [d _]. exists d.
  destruct (for_epochs_raising_Some d _ _ _ _ H) as [Hrun (n & Hn & Hlen & Hph)].
  split; [exact Hrun|].
  intros e He. cbn [init hist h_val_auc length Nat.add] in Hlen.
  rewrite Hlen in He. rewrite length_seq in Hn.
  assert (Hin : In e (firstn n (seq 0 num_epochs))).
  { rewrite take_seq, Nat.min_l by exact Hn. apply in_seq. lia. }
  apply Hph in Hin. unfold observed.
  destruct (phases e); [reflexivity | contradiction].
Qed.

(** After a loop that ended without an exception, the outcome is that of
    the reload. *)
Lemma train_completed (final : loop_state params) (c : ctrl) :
  for_epochs_raising phases (seq 0 num_epochs) (init fs0) = Some (final, c) ->
  train_precomputed_crnn phases loadable true fs0 =
    match best_file final with
    | None => Raised FileNotFoundError
    | Some ck =>
        if loadable ck
        then Returned (Some (model_state_dict ck, hist final))
        else Raised LoadError
    end.
Proof.
  intro H. unfold train_precomputed_crnn. cbn [negb]. now rewrite H.
Qed.

(** C10 (amended): in a run whose loop ends without an exception and
    records no validation AUC above 0, no checkpoint is written and the
    file at the checkpoint path is as it was before the run.  The reload
    after the loop fails for want of a file only when there was none
    beforehand; a file left there by an earlier run is read back instead,
    and its parameters are returned as the trained model unless it cannot
    be loaded. *)
Theorem no_improvement_reload_fails (final : loop_state params) (c : ctrl) :
  for_epochs_raising phases (seq 0 num_epochs) (init fs0) = Some (final, c) ->
  Forall (fun v => (v <= 0)%Q) (h_val_auc (hist final)) ->
  saves final = [] /\
  best_file final = fs0 /\
  train_precomputed_crnn phases loadable true fs0 =
    match fs0 with
    | None => Raised FileNotFoundError
    | Some old =>
        if loadable old
        then Returned (Some (model_state_dict old, hist final))
        else Raised LoadError
    end.
Proof.
  intros H Hall.
  destruct (raising_run final c H) as (d & Hrun & _).
  pose proof (no_improvement_no_save params (observed d phases) fs0) as Hno.
  cbv zeta in Hno. rewrite Hrun in Hno. cbn [fst] in Hno.
  destruct (Hno Hall) as [Hs Hf].
  split; [exact Hs|]. split; [exact Hf|].
  rewrite (train_completed final c H), Hf. reflexivity.
Qed.

End Raising.

(** C1 as stated fails in a first epoch whose validation AUC is 0: that
    value exceeds the AUC of every previous epoch (there is none), yet the
    comparison with the initial best value 0 fails and nothing is
    written. *)
Lemma first_epoch_zero_auc_not_persisted :
  let st := init None in
  let v := epoch_val_auc zero_auc_obs 0 st in
  run zero_auc_obs None 0 = (st, Continue) /\
  0 < num_epochs /\
  Forall (fun b => (b < v)%Q) (h_val_auc (hist st)) /\
  ~ persisted st (fst (epoch_body zero_auc_obs 0 st)).
Proof.
  cbv zeta. split; [reflexivity|]. split; [apply (Nat.lt_0_succ 49)|].
  split; [constructor|].
  apply not_persisted_same_saves. reflexivity.
Qed.

Lemma checkpoint_iff_strict_improvement_witness :
  let st := init None in
  run half_then_quarter_obs None 0 = (st, Continue) /\
  0 < num_epochs /\
  wait (fst (epoch_body half_then_quarter_obs 0 st)) = 0 /\
  best_file (fst (epoch_body half_then_quarter_obs 0 st)) =
    Some (Build_checkpoint unit tt 0 (1 # 2)%Q).
Proof.
  cbv zeta. split; [reflexivity|]. split; [exact (Nat.lt_0_succ 49)|].
  destruct (checkpoint_iff_strict_improvement unit half_then_quarter_obs None
              0 (init None) eq_refl (Nat.lt_0_succ 49))
    as (_ & Hiff & Hp & _).
  assert (H : persisted (init None)
                (fst (epoch_body half_then_quarter_obs 0 (init None)))).
  { apply Hiff. split; [reflexivity | constructor]. }
  destruct (Hp H) as (_ & Hfile & Hwait).
  split; [exact Hwait | exact Hfile].
Defined.

(** C5 as stated fails when the computation raises in the first epoch:
    the epoch is completed, but the history is still empty, so its
    validation AUC is no earlier epoch's value; it is the constant 0. *)
Lemma first_epoch_failure_has_no_previous_value :
  let st := init None in
  let v := epoch_val_auc failing_obs 0 st in
  run failing_obs None 0 = (st, Continue) /\
  0 < num_epochs /\
  ob_auc (failing_obs 0) = None /\
  ~ (exists j, nth_error (h_val_auc (hist st)) j = Some v) /\
  v = 0%Q.
Proof.
  cbv zeta. split; [reflexivity|]. split; [apply (Nat.lt_0_succ 49)|].
  split; [reflexivity|]. split; [|reflexivity].
  intros [[|j] Hj]; discriminate Hj.
Qed.

Lemma auc_failure_reuses_last_value_witness :
  let st := fst (run half_then_quarter_obs None 1) in
  run half_then_quarter_obs None 1 = (st, Continue) /\
  1 < num_epochs /\
  ob_auc (half_then_quarter_obs 1) = None /\
  nth_error (h_val_auc (hist st)) 0 =
    Some (epoch_val_auc half_then_quarter_obs 1 st) /\
  wait (fst (epoch_body half_then_quarter_obs 1 st)) = S (wait st).
Proof.
  cbv zeta.
  assert (Hlt : 1 < num_epochs) by exact (proj1 (Nat.succ_lt_mono 0 49) (Nat.lt_0_succ 48)).
  split; [reflexivity|]. split; [exact Hlt|]. split; [reflexivity|].
  destruct (auc_failure_reuses_last_value unit half_then_quarter_obs None 1
              (fst (run half_then_quarter_obs None 1)) eq_refl Hlt eq_refl)
    as (Hprev & _ & _ & _ & _ & _ & _ & Hwait).
  split; [exact Hprev | exact Hwait].
Defined.

(** C10 as stated fails when an earlier run left a file at the checkpoint
    path: every epoch of this run fails to compute an AUC, nothing is
    written, and yet the reload succeeds and the function returns the
    parameters of the older file as the trained model. *)
Lemma no_improvement_returns_stale_model :
  let final :=
    fst (for_epochs numbered_failing_obs (seq 0 num_epochs)
           (init (Some stale_checkpoint))) in
  Forall (fun v => (v <= 0)%Q) (h_val_auc (hist final)) /\
  saves final = [] /\
  train_precomputed_crnn (completing numbered_failing_obs) (fun _ => true)
    true (Some stale_checkpoint) =
  Returned (Some (model_state_dict stale_checkpoint, hist final)).
Proof.
  cbv zeta. split; [|split].
  - vm_compute. repeat constructor; discriminate.
  - vm_compute. reflexivity.
  - vm_compute. reflexivity.
Qed.

Lemma no_improvement_reload_fails_witness :
  let final := fst (for_epochs failing_obs (seq 0 num_epochs) (init None)) in
  for_epochs_raising (completing failing_obs) (seq 0 num_epochs) (init None)
    = Some (final, Break) /\
  Forall (fun v => (v <= 0)%Q) (h_val_auc (hist final)) /\
  saves final = [] /\
  train_precomputed_crnn (completing failing_obs) (fun _ => true) true None
    = Raised FileNotFoundError.
Proof.
  cbv zeta.
  assert (Hrun : for_epochs_raising (completing failing_obs)
                   (seq 0 num_epochs) (init None)
                 = Some (fst (for_epochs failing_obs (seq 0 num_epochs)
                                (init None)), Break)).
  { vm_compute. reflexivity. }
  assert (Hall : Forall (fun v => (v <= 0)%Q)
           (h_val_auc (hist (fst (for_epochs failing_obs (seq 0 num_epochs)
                                    (init None)))))).
  { eapply Forall_impl;
      [|exact (all_failures_record_zero unit failing_obs None num_epochs
                 (fun _ => eq_refl))].
    intros v ->. apply Qle_refl. }
  split; [exact Hrun|]. split; [exact Hall|].
  destruct (no_improvement_reload_fails unit (completing failing_obs)
              (fun _ => true) None _ Break Hrun Hall) as (Hs & _ & Hret).
  split; [exact Hs | exact Hret].
Defined.

End TrainingFacts.

(* ================================================================== *)
(** * Facts about the singleton-class filter                           *)
(* ================================================================== *)

Module FilteringFacts.
Import Filtering.

Abbreviation count := (count_occ Nat.eq_dec).

Lemma in_le_list_max (y : list nat) (c : nat) : In c y -> c <= list_max y.
Proof.
  intro H. pose proof (proj1 (list_max_le y (list_max y)) (Nat.le_refl _)) as Hall.
  rewrite Forall_forall in Hall. now apply Hall.
Qed.

Lemma nth_map_seq (f : nat -> nat) (n c : nat) :
  c < n -> nth c (map f (seq 0 n)) 0 = f c.
Proof.
  intro H. rewrite (nth_indep _ 0 (f 0)) by now rewrite length_map, length_seq.
  rewrite map_nth, seq_nth by exact H. reflexivity.
Qed.

(** Entry [c] of [np.bincount(y)] is the number of occurrences of [c];
    beyond the end of the array that number is 0. *)
Lemma bincount_nth (y : list nat) (c : nat) :
  nth c (bincount y) 0 = count y c.
Proof.
  unfold bincount. destruct y as [|a y']; [now destruct c|].
  set (y := a :: y').
  destruct (Nat.lt_ge_cases c (S (list_max y))) as [H|H].
  - now apply nth_map_seq.
  - rewrite nth_overflow by now rewrite length_map, length_seq.
    symmetry. apply count_occ_not_In. intro Hin.
    apply in_le_list_max in Hin. lia.
Qed.

Lemma bincount_lt_length (y : list nat) (c : nat) :
  In c y -> c < length (bincount y).
Proof.
  intro H. unfold bincount. destruct y as [|a y']; [contradiction|].
  rewrite length_map, length_seq. apply in_le_list_max in H. lia.
Qed.

(** The mask [np.isin(y, np.where(label_counts >= 2)[0])] marks exactly
    the labels that occur at least twice. *)
Lemma isin_where_ge_2 (y : list nat) (c : nat) :
  existsb (Nat.eqb c) (where_ge_2 (bincount y)) = (2 <=? count y c).
Proof.
  apply eq_true_iff_eq. rewrite existsb_exists, Nat.leb_le.
  unfold where_ge_2. split.
  - intros (x & Hx & E). apply Nat.eqb_eq in E. subst x.
    apply filter_In in Hx. destruct Hx as [_ Hx].
    apply Nat.leb_le in Hx. now rewrite bincount_nth in Hx.
  - intro H. exists c. split; [|apply Nat.eqb_refl].
    apply filter_In. split.
    + apply in_seq. split; [lia|]. simpl.
      destruct (Nat.lt_ge_cases c (length (bincount y))) as [Hc|Hc]; [exact Hc|].
      pose proof (bincount_nth y c) as Hn.
      rewrite nth_overflow in Hn by exact Hc. lia.
    + apply Nat.leb_le. now rewrite bincount_nth.
Qed.

Lemma mask_select_map {A B : Type} (f : B -> bool) (a : list A) (y : list B) :
  length a = length y ->
  mask_select (map f y) a =
  Some (map fst (List.filter (fun p => f (snd p)) (combine a y))).
Proof.
  revert y. induction a as [|x a IH]; intros [|c y] Hl; try discriminate.
  - reflexivity.
  - simpl. rewrite IH by (simpl in Hl; lia).
    destruct (f c); reflexivity.
Qed.

Lemma mask_select_self {B : Type} (f : B -> bool) (y : list B) :
  mask_select (map f y) y = Some (List.filter f y).
Proof.
  induction y as [|c y IH]; [reflexivity|].
  simpl. rewrite IH. destruct (f c); reflexivity.
Qed.

Lemma filter_combine {A B : Type} (f : B -> bool) (a : list A) (y : list B) :
  length a = length y ->
  combine (map fst (List.filter (fun p => f (snd p)) (combine a y)))
          (List.filter f y)
  = List.filter (fun p => f (snd p)) (combine a y).
Proof.
  revert y. induction a as [|x a IH]; intros [|c y] Hl; try discriminate.
  - reflexivity.
  - simpl. destruct (f c); simpl; rewrite IH by (simpl in Hl; lia); reflexivity.
Qed.

Lemma length_filter_combine {A B : Type} (f : B -> bool)
    (a : list A) (y : list B) :
  length a = length y ->
  length (map fst (List.filter (fun p => f (snd p)) (combine a y)))
  = length (List.filter f y).
Proof.
  revert y. induction a as [|x a IH]; intros [|c y] Hl; try discriminate.
  - reflexivity.
  - simpl. destruct (f c); simpl; rewrite IH by (simpl in Hl; lia); reflexivity.
Qed.

Lemma filter_all {A : Type} (f : A -> bool) (l : list A) :
  (forall x, In x l -> f x = true) -> List.filter f l = l.
Proof.
  induction l as [|x l IH]; intro H; [reflexivity|].
  simpl. rewrite (H x) by now left. f_equal. apply IH.
  intros z Hz. apply H. now right.
Qed.

Lemma count_filter (f : nat -> bool) (y : list nat) (c : nat) :
  count (List.filter f y) c = if f c then count y c else 0.
Proof.
  induction y as [|a y IH]; [now destruct (f c)|].
  simpl. destruct (f a) eqn:Ea; simpl; destruct (Nat.eq_dec a c) as [->|Hne];
    rewrite ?IH; try rewrite Ea; reflexivity.
Qed.

(** Without a class of exactly one example, every label occurs twice. *)
Lemma no_singleton_all_ge_2 (y : list nat) (c : nat) :
  any_eq_1 (bincount y) = false -> In c y -> 2 <= count y c.
Proof.
  intros Hany Hin.
  assert (H1 : 1 <= count y c) by now apply count_occ_In.
  destruct (Nat.eq_dec (count y c) 1) as [E|E]; [|lia].
  exfalso. unfold any_eq_1 in Hany.
  assert (Hex : existsb (Nat.eqb 1) (bincount y) = true).
  { apply existsb_exists. exists (nth c (bincount y) 0). split.
    - apply nth_In. now apply bincount_lt_length.
    - rewrite bincount_nth, E. reflexivity. }
  congruence.
Qed.

(** C3: for parallel feature and label arrays the filtering step succeeds;
    it keeps, in order, exactly the examples whose class has at least two
    examples.  Hence every class still present has at least two examples,
    a class with at least two examples keeps all of them, and a class with
    exactly one example disappears. *)
Theorem filter_singletons_keeps_classes_of_two
    {feature : Type} (X : list feature) (y : list nat) :
  length X = length y ->
  exists X' y',
    filter_singletons X y = Some (X', y') /\
    length X' = length y' /\
    combine X' y' =
      List.filter (fun p => 2 <=? count y (snd p)) (combine X y) /\
    (forall c, In c y' -> 2 <= count y' c) /\
    (forall c, 2 <= count y c -> count y' c = count y c) /\
    (forall c, count y c = 1 -> ~ In c y').
Proof.
  intro Hlen.
  set (keep := fun c => 2 <=? count y c).
  assert (Hcount : forall c, count (List.filter keep y) c
                             = if keep c then count y c else 0)
    by (intro c; apply count_filter).
  assert (Hprops :
    (forall c, In c (List.filter keep y) -> 2 <= count (List.filter keep y) c) /\
    (forall c, 2 <= count y c -> count (List.filter keep y) c = count y c) /\
    (forall c, count y c = 1 -> ~ In c (List.filter keep y))).
  { split; [|split].
    - intros c Hc. apply filter_In in Hc. destruct Hc as [_ Hk].
      rewrite Hcount, Hk. now apply Nat.leb_le in Hk.
    - intros c Hc. rewrite Hcount. unfold keep.
      now rewrite (proj2 (Nat.leb_le _ _) Hc).
    - intros c Hc Hin. apply filter_In in Hin. destruct Hin as [_ Hk].
      unfold keep in Hk. apply Nat.leb_le in Hk. lia. }
  unfold filter_singletons.
  destruct (any_eq_1 (bincount y)) eqn:Hany.
  - assert (Hmask : isin y (where_ge_2 (bincount y)) = map keep y).
    { unfold isin. apply map_ext. intro c. apply isin_where_ge_2. }
    rewrite Hmask, (mask_select_map keep X y Hlen), mask_select_self.
    eexists _, _. split; [reflexivity|].
    split; [now apply length_filter_combine|].
    split; [exact (filter_combine keep X y Hlen)|]. exact Hprops.
  - assert (Hall : forall c, In c y -> keep c = true).
    { intros c Hc. apply Nat.leb_le. now apply no_singleton_all_ge_2. }
    assert (Hy : List.filter keep y = y) by now apply filter_all.
    rewrite Hy in Hprops.
    exists X, y. split; [reflexivity|]. split; [exact Hlen|].
    split; [|exact Hprops].
    symmetry. apply filter_all. intros [x c] Hin.
    apply in_combine_r in Hin. now apply Hall.
Qed.

Lemma filter_singletons_keeps_classes_of_two_witness :
  length ["a"; "b"; "c"; "d"; "e"]%string = length [3; 1; 3; 0; 5] /\
  exists X' y',
    filter_singletons ["a"; "b"; "c"; "d"; "e"]%string [3; 1; 3; 0; 5]
      = Some (X', y') /\
    forall c, In c y' -> 2 <= count y' c.
Proof.
  split; [reflexivity|].
  destruct (filter_singletons_keeps_classes_of_two
              ["a"; "b"; "c"; "d"; "e"]%string [3; 1; 3; 0; 5] eq_refl)
    as (X' & y' & Hf & _ & _ & Hge & _).
  exists X', y'. split; [exact Hf | exact Hge].
Defined.

End FilteringFacts.

(* ================================================================== *)
(** * Facts about the dataset wrapper                                  *)
(* ================================================================== *)

Module DatasetFacts.
Import Dataset.

(** Indexing succeeds inside the bounds of parallel arrays. *)
Lemma getitem_in_range (self : PrecomputedFeatureDataset) (idx : nat) :
  length (labels self) = length (features self) ->
  idx < len self ->
  exists feature label,
    nth_error (features self) idx = Some feature /\
    nth_error (labels self) idx = Some label.
Proof.
  unfold len. intros Hl Hi.
  destruct (nth_error (features self) idx) as [f|] eqn:Ef.
  2:{ apply nth_error_None in Ef. lia. }
  destruct (nth_error (labels self) idx) as [l|] eqn:El.
  2:{ apply nth_error_None in El. lia. }
  now exists f, l.
Qed.

(** A stored entry of any other rank is handed out as it is. *)
Lemma getitem_other_rank (self : PrecomputedFeatureDataset) (idx : nat)
    (feature : ndarray) (label : nat) :
  nth_error (features self) idx = Some feature ->
  nth_error (labels self) idx = Some label ->
  length (shape feature) <> 2 ->
  getitem self idx = Some (feature, label).
Proof.
  intros Hf Hl Hr. unfold getitem. rewrite Hf, Hl.
  destruct (Nat.eqb_spec (length (shape feature)) 2); [contradiction|reflexivity].
Qed.

(** C4: for every index within a dataset of parallel arrays whose stored
    entry is either a 2-D (frequency x time) array or already has a
    singleton channel axis in front, the returned tensor has shape
    (1, frequency, time): its leading channel dimension is 1, and its
    entries and label are the stored ones. *)
Theorem getitem_leading_channel_is_1
    (self : PrecomputedFeatureDataset) (idx : nat)
    (feature : ndarray) (h w : nat) :
  length (labels self) = length (features self) ->
  idx < len self ->
  nth_error (features self) idx = Some feature ->
  shape feature = [h; w] \/ shape feature = [1; h; w] ->
  exists label,
    nth_error (labels self) idx = Some label /\
    getitem self idx =
      Some ({| shape := [1; h; w]; data := data feature |}, label).
Proof.
  intros Hl Hi Hf Hs.
  destruct (getitem_in_range self idx Hl Hi) as (f & l & Hf' & Hlab).
  rewrite Hf in Hf'. injection Hf' as <-.
  exists l. split; [exact Hlab|].
  unfold getitem. rewrite Hf, Hlab.
  destruct feature as [s d]. simpl in *.
  destruct Hs as [-> | ->]; reflexivity.
Qed.

Lemma getitem_leading_channel_is_1_witness :
  let plain := {| shape := [2; 3]; data := [1; 2; 3; 4; 5; 6]%Q |} in
  let chan := {| shape := [1; 2; 3]; data := [6; 5; 4; 3; 2; 1]%Q |} in
  let self := {| features := [plain; chan]; labels := [7; 9] |} in
  length (labels self) = length (features self) /\
  0 < len self /\
  nth_error (features self) 0 = Some plain /\
  (shape plain = [2; 3] \/ shape plain = [1; 2; 3]) /\
  exists label,
    nth_error (labels self) 0 = Some label /\
    getitem self 0 =
      Some ({| shape := [1; 2; 3]; data := data plain |}, label).
Proof.
  intros plain chan self.
  split; [reflexivity|]. split; [exact (Nat.lt_0_succ 1)|].
  split; [reflexivity|]. split; [left; reflexivity|].
  exact (getitem_leading_channel_is_1 self 0 plain 2 3 eq_refl
           (Nat.lt_0_succ 1) eq_refl (or_introl eq_refl)).
Defined.

End DatasetFacts.

(* ================================================================== *)
(** * Facts about the CRNN forward pass                                *)
(* ================================================================== *)

Module CRNNFacts.
Import CRNN.

(** A feature map at least two high never has a single value per channel,
    so the normalisation layers of the encoder accept it in both modes. *)
Lemma BatchNorm2d_shape (training : bool) (b c h w : nat) :
  2 <= h -> 1 <= w ->
  BatchNorm2d training c [b; c; h; w] = Some [b; c; h; w].
Proof.
  intros Hh Hw. unfold BatchNorm2d. rewrite Nat.eqb_refl.
  destruct (Nat.eqb_spec (b * (h * w)) 1) as [E|_].
  - exfalso. apply Nat.eq_mul_1 in E. destruct E as [_ E].
    apply Nat.eq_mul_1 in E. lia.
  - now rewrite andb_false_r.
Qed.

(** After the three convolution blocks: 256 channels, 16 x 32. *)
Lemma features_shape (training : bool) (B : nat) :
  features training [B; 1; 128; 256] = Some [B; 256; 16; 32].
Proof.
  unfold features, Sequential.
  cbn [fold_left mbind option_bind Conv2d Nat.eqb Nat.leb Nat.add Nat.mul
       Nat.sub andb ReLU Dropout].
  rewrite BatchNorm2d_shape by lia.
  cbn [Nat.eqb andb mbind option_bind ReLU Dropout MaxPool2d Nat.leb].
  change ((128 - 2) / 2 + 1) with 64. change ((256 - 2) / 2 + 1) with 128.
  cbn [mbind option_bind Conv2d Nat.eqb Nat.leb Nat.add Nat.mul Nat.sub andb].
  rewrite BatchNorm2d_shape by lia.
  cbn [Nat.eqb andb mbind option_bind ReLU Dropout MaxPool2d Nat.leb].
  change ((64 - 2) / 2 + 1) with 32. change ((128 - 2) / 2 + 1) with 64.
  cbn [mbind option_bind Conv2d Nat.eqb Nat.leb Nat.add Nat.mul Nat.sub andb].
  rewrite BatchNorm2d_shape by lia.
  cbn [Nat.eqb andb mbind option_bind ReLU Dropout MaxPool2d Nat.leb].
  reflexivity.
Qed.

Lemma reshape_time_major (B : nat) :
  0 < B ->
  reshape_infer_last B 32 [B; 32; 256; 16] = Some [B; 32; 16 * 256].
Proof.
  intro HB. unfold reshape_infer_last.
  assert (E : fold_right Nat.mul 1 [B; 32; 256; 16] = (16 * 256) * (B * 32)).
  { cbn [fold_right]. rewrite Nat.mul_1_r.
    rewrite (Nat.mul_comm 256 16), (Nat.mul_comm (16 * 256) (B * 32)).
    now rewrite Nat.mul_assoc. }
  rewrite E.
  assert (Hnz : B * 32 <> 0) by lia.
  rewrite Nat.Div0.mod_mul, Nat.div_mul by exact Hnz.
  destruct (Nat.eqb_spec (16 * 256 * (B * 32)) 0) as [E0|_].
  - exfalso. apply Nat.eq_mul_0 in E0. destruct E0 as [E0|E0]; [|lia].
    discriminate E0.
  - reflexivity.
Qed.

Lemma attention_shape (H B T : nat) :
  attention H [B; T; 2 * H] = Some [B; T; 1].
Proof.
  unfold attention, Sequential. cbn [fold_left mbind option_bind Linear].
  rewrite (Nat.mul_comm 2 H), Nat.eqb_refl. reflexivity.
Qed.

(** The classifier head: its batch normalisation refuses a batch of one
    in training mode. *)
Lemma classifier_shape (num_classes H : nat) (training : bool) (B : nat) :
  classifier num_classes H training [B; 2 * H] =
  if training && (B =? 1) then None else Some [B; num_classes].
Proof.
  unfold classifier, Sequential. cbn [fold_left mbind option_bind Linear].
  rewrite (Nat.mul_comm 2 H), Nat.eqb_refl.
  cbn [option_map mbind option_bind]. unfold BatchNorm1d.
  change (512 =? 512) with true. cbn [andb].
  destruct (training && (B =? 1)); reflexivity.
Qed.

Lemma forward_shape (num_classes H : nat) (training : bool) (B : nat) :
  0 < B -> 0 < H ->
  forward num_classes H training [B; 1; 128; 256] =
  if training && (B =? 1) then None else Some [B; num_classes].
Proof.
  intros HB HH. unfold forward.
  cbn [head mbind option_bind]. rewrite features_shape.
  cbn [mbind option_bind permute_0_3_1_2 nth].
  rewrite (reshape_time_major B HB).
  cbn [mbind option_bind]. unfold gru, GRU.
  rewrite (proj2 (Nat.ltb_lt 0 H) HH), Nat.eqb_refl. cbn [andb].
  cbn [mbind option_bind]. rewrite attention_shape.
  cbn [fmap option_fmap option_map mbind option_bind squeeze_last
       softmax_dim_1 unsqueeze_1 bmm Nat.eqb].
  rewrite !Nat.eqb_refl.
  cbn [andb mbind option_bind squeeze_1 Nat.eqb].
  apply classifier_shape.
Qed.

Local Open Scope R_scope.

Lemma Rsum_map_div (f : R -> R) (z : R) (l : list R) :
  Rsum (map (fun s => f s / z) l) = Rsum (map f l) / z.
Proof.
  induction l as [|a l IH]; simpl.
  - unfold Rdiv. now rewrite Rmult_0_l.
  - rewrite IH. unfold Rdiv. now rewrite Rmult_plus_distr_r.
Qed.

Lemma Rsum_exp_pos (l : list R) : l <> [] -> 0 < Rsum (map exp l).
Proof.
  destruct l as [|a l]; [congruence|]. intros _. simpl.
  apply Rplus_lt_le_0_compat; [apply exp_pos|].
  induction l as [|b l IH]; simpl; [apply Rle_refl|].
  apply Rplus_le_le_0_compat; [left; apply exp_pos | exact IH].
Qed.

(** The softmax weights are positive and sum to 1. *)
Lemma softmax_sum_1 (scores : list R) :
  scores <> [] -> Rsum (softmax scores) = 1.
Proof.
  intro Hne. unfold softmax. rewrite Rsum_map_div.
  pose proof (Rsum_exp_pos scores Hne) as Hz.
  apply Rdiv_diag. Lra.lra.
Qed.

Lemma softmax_pos (scores : list R) :
  scores <> [] -> Forall (fun w => 0 < w) (softmax scores).
Proof.
  intro Hne. pose proof (Rsum_exp_pos scores Hne) as Hz.
  unfold softmax. apply Forall_forall. intros w Hw.
  apply in_map_iff in Hw. destruct Hw as (s & <- & _).
  apply Rdiv_lt_0_compat; [apply exp_pos | exact Hz].
Qed.

Lemma vadd_scaled_row (a : R) (g : nat -> R) (r : list R) (s : nat) :
  vadd (vscale a r) (map g (seq s (length r))) =
  map (fun j => a * nth (j - s) r 0 + g j) (seq s (length r)).
Proof.
  revert s. induction r as [|x r IH]; intro s; [reflexivity|].
  cbn [length seq map vscale]. unfold vadd. cbn [combine map fst snd].
  rewrite Nat.sub_diag. cbn [nth]. f_equal.
  fold (vscale a r). fold (vadd (vscale a r) (map g (seq (S s) (length r)))).
  rewrite IH. apply map_ext_in. intros j Hj. apply in_seq in Hj.
  replace (j - s)%nat with (S (j - S s)) by lia. reflexivity.
Qed.

(** The row that [torch.bmm] computes is the weighted sum of the hidden
    vectors. *)
Lemma bmm_row_weighted_sum (D : nat) (w : list R) (m : list (list R)) :
  Forall (fun h => length h = D) m ->
  bmm_row D w m = weighted_sum D w m.
Proof.
  intro Hm. revert w. induction Hm as [|r m Hr _ IH]; intro w.
  - unfold bmm_row, weighted_sum. destruct w; cbn [combine map fold_right Rsum].
    + clear. generalize 0%nat. induction D as [|D IH]; intro s; [reflexivity|].
      cbn [seq map repeat]. now rewrite IH.
    + clear. generalize 0%nat. induction D as [|D IH]; intro s; [reflexivity|].
      cbn [seq map repeat]. now rewrite IH.
  - destruct w as [|a w].
    + unfold bmm_row, weighted_sum. cbn [combine map fold_right Rsum].
      clear. generalize 0%nat. induction D as [|D IH]; intro s; [reflexivity|].
      cbn [seq map repeat]. now rewrite IH.
    + unfold weighted_sum. cbn [combine fold_right fst snd].
      fold (weighted_sum D w m). rewrite <- IH.
      unfold bmm_row. cbn [combine map fst snd Rsum fold_right].
      rewrite <- Hr. rewrite vadd_scaled_row.
      apply map_ext. intro j. now rewrite Nat.sub_0_r.
Qed.

(** C8, as stated, fails for a batch of one example while the model is in
    training mode: the classifier's batch normalisation raises, and the
    forward pass has no output. *)
Lemma forward_rejects_batch_of_one_in_training :
  forward 10 256 true [1; 1; 128; 256]%nat = None /\
  forward 10 256 false [1; 1; 128; 256]%nat = Some [1; 10]%nat.
Proof.
  split.
  - exact (forward_shape 10 256 true 1 (Nat.lt_0_succ 0) (Nat.lt_0_succ 255)).
  - exact (forward_shape 10 256 false 1 (Nat.lt_0_succ 0) (Nat.lt_0_succ 255)).
Qed.

(** C8 (amended): with a positive hidden size, a non-empty batch of shape
    (B, 1, 128, 256) comes out of the forward pass with shape
    (B, num_classes), except that a batch of one example is rejected while
    the model is in training mode.  For one example with its 32 per-step
    hidden vectors of size 2 * hidden, the softmax attention weights -- one
    per time step -- sum to 1 over the reals, and the pooled context vector
    is their weighted sum of the hidden vectors. *)
Theorem forward_shape_and_attention_pooling
    (num_classes H : nat) (training : bool) (B : nat)
    (scorer : list R -> R) (gru_out : list (list R)) :
  (0 < B)%nat ->
  (0 < H)%nat ->
  length gru_out = 32%nat ->
  Forall (fun h => length h = (2 * H)%nat) gru_out ->
  forward num_classes H training [B; 1; 128; 256]%nat =
    (if training && (B =? 1)%nat then None else Some [B; num_classes]) /\
  length (attn_weights scorer gru_out) = 32%nat /\
  Rsum (attn_weights scorer gru_out) = 1 /\
  context (2 * H) scorer gru_out =
    weighted_sum (2 * H) (attn_weights scorer gru_out) gru_out.
Proof.
  intros HB HH HT Hrows.
  split; [now apply forward_shape|].
  split; [unfold attn_weights, softmax; now rewrite !length_map|].
  split.
  - apply softmax_sum_1. destruct gru_out; [discriminate HT | discriminate].
  - unfold context. now apply bmm_row_weighted_sum.
Qed.

Lemma forward_shape_and_attention_pooling_witness :
  let gru_out := repeat [0; 0] 32 in
  (0 < 4)%nat /\
  (0 < 1)%nat /\
  length gru_out = 32%nat /\
  Forall (fun h => length h = (2 * 1)%nat) gru_out /\
  forward 10 1 true [4; 1; 128; 256]%nat = Some [4; 10]%nat /\
  Rsum (attn_weights (fun _ => 0) gru_out) = 1.
Proof.
  intro gru_out.
  assert (Hrows : Forall (fun h => length h = (2 * 1)%nat) gru_out).
  { apply Forall_forall. intros h Hh. apply repeat_spec in Hh. now subst h. }
  split; [exact (Nat.lt_0_succ 3)|]. split; [exact (Nat.lt_0_succ 0)|].
  split; [reflexivity|]. split; [exact Hrows|].
  destruct (forward_shape_and_attention_pooling 10 1 true 4 (fun _ => 0)
              gru_out (Nat.lt_0_succ 3) (Nat.lt_0_succ 0) eq_refl Hrows)
    as (Hshape & _ & Hsum & _).
  split; [exact Hshape | exact Hsum].
Defined.

End CRNNFacts.

(* ================================================================== *)
(** * Facts about the competition metric                               *)
(* ================================================================== *)

Module ScoringFacts.
Import Scoring ScoringSamples.

(** ** Tables and dtypes *)

Lemma get_column_drop_ne (name id : string) (t : DataFrame) :
  name <> id -> get_column name (drop_column id t) = get_column name t.
Proof.
  intro Hne. induction t as [|[n c] t IH]; [reflexivity|].
  simpl. destruct (String.eqb_spec n id) as [->|Hn]; simpl.
  - destruct (String.eqb_spec id name) as [E|_]; [congruence | exact IH].
  - now rewrite IH.
Qed.

Lemma has_column_drop (id : string) (t : DataFrame) :
  has_column id (drop_column id t) = false.
Proof.
  induction t as [|[n c] t IH]; [reflexivity|].
  simpl. destruct (String.eqb_spec n id) as [->|Hn]; simpl; [exact IH|].
  rewrite IH. destruct (String.eqb_spec n id); [contradiction|reflexivity].
Qed.


Lemma dtype_eqb_eq (a b : dtype) : dtype_eqb a b = true <-> a = b.
Proof. destruct a, b; simpl; split; congruence. Qed.

(** A table with an [object] column has [object] values. *)
Lemma find_common_type_object (types : list dtype) :
  In object_ types -> find_common_type types = object_.
Proof.
  intro Hin. unfold find_common_type.
  destruct types as [|first rest]; [contradiction|].
  destruct (forallb (dtype_eqb first) (first :: rest)) eqn:Hall.
  - rewrite forallb_forall in Hall. now apply dtype_eqb_eq, Hall.
  - assert (Hex : existsb (dtype_eqb object_) (first :: rest) = true).
    { apply existsb_exists. exists object_. split; [exact Hin|reflexivity]. }
    now rewrite Hex.
Qed.

(** Whether [submission.values] is numeric is not a column-by-column
    property: boolean columns pass alone, float columns pass alone, and the
    two together do not. *)
Lemma dtype_gate_not_columnwise :
  ~ exists numeric : dtype -> bool,
      forall t : DataFrame,
        is_numeric_dtype (values_dtype t) =
        forallb (fun p => numeric (col_dtype (snd p))) t.
Proof.
  intros [numeric H].
  pose proof (H [(""%string, BoolCol [])]) as Hb.
  pose proof (H [(""%string, FloatCol [])]) as Hf.
  pose proof (H [(""%string, BoolCol []); (""%string, FloatCol [])]) as Hbf.
  cbn in Hb, Hf, Hbf.
  destruct (numeric bool_), (numeric float64); discriminate.
Qed.

(** ** Column sums of indicator columns *)

Lemma column_sum_positive_values (c : column) (vs : list Q) :
  column_values c = Some vs ->
  column_sum_positive c = Some (Qgt_bool (Qsum vs) 0).
Proof.
  destruct c; simpl; intro H; try discriminate; now injection H as <-.
Qed.

Lemma Qsum_nonneg (vs : list Q) :
  Forall (fun v => 0 <= v)%Q vs -> (0 <= Qsum vs)%Q.
Proof.
  induction 1 as [|a vs Ha _ IH]; simpl; [apply Qle_refl|]. Lqa.lra.
Qed.

Lemma Qsum_pos_iff (vs : list Q) :
  Forall (fun v => 0 <= v)%Q vs ->
  (0 < Qsum vs)%Q <-> Exists (fun v => 0 < v)%Q vs.
Proof.
  induction 1 as [|a vs Ha Hvs IH]; simpl.
  - split; intro H; [exfalso; Lqa.lra | inversion H].
  - pose proof (Qsum_nonneg vs Hvs) as Hs. split.
    + intro H. destruct (Qlt_le_dec 0 a) as [Hpos|Hle].
      * now apply Exists_cons_hd.
      * apply Exists_cons_tl, IH. Lqa.lra.
    + intro H. inversion H as [? ? Hpos|? ? Htl]; subst; [Lqa.lra|].
      apply IH in Htl. Lqa.lra.
Qed.

Lemma indicator_sum_positive (c : column) :
  indicator c ->
  exists pos, column_sum_positive c = Some pos /\
              (pos = true <-> has_positive c).
Proof.
  intros (vs & Hv & H01).
  exists (Qgt_bool (Qsum vs) 0). split; [now apply column_sum_positive_values|].
  assert (Hnn : Forall (fun v => 0 <= v)%Q vs).
  { eapply Forall_impl; [|exact H01]. cbv beta. intros v [E|E]; Lqa.lra. }
  rewrite Qgt_bool_iff, (Qsum_pos_iff vs Hnn). split.
  - intro H. now exists vs.
  - intros (vs' & Hv' & H). rewrite Hv in Hv'. now injection Hv' as <-.
Qed.

(** The scored columns are the labels of the indicator columns that have
    a positive row. *)
Lemma scored_columns_indicator (sol : DataFrame) :
  Forall (fun p => indicator (snd p)) sol ->
  exists scored,
    scored_columns sol = Some scored /\
    (forall n, In n scored <-> exists c, In (n, c) sol /\ has_positive c) /\
    incl scored (map fst sol).
Proof.
  induction 1 as [|[n c] sol Hc _ IH].
  - exists []. split; [reflexivity|]. split; [|intros x []].
    intro n. split; [intros [] | intros (c & [] & _)].
  - destruct IH as (rest & Hrest & Hin & Hincl).
    destruct (indicator_sum_positive c Hc) as (pos & Hpos & Hiff).
    exists (if pos then n :: rest else rest).
    cbn [scored_columns]. rewrite Hpos, Hrest.
    split; [reflexivity|]. split.
    + intro m. destruct pos.
      * split.
        -- intros [<-|Hm]; [exists c; split; [now left | now apply Hiff]|].
           apply Hin in Hm. destruct Hm as (c' & Hc' & Hp).
           exists c'. split; [now right | exact Hp].
        -- intros (c' & [E|Hc'] & Hp).
           ++ injection E as <- <-. now left.
           ++ right. apply Hin. now exists c'.
      * split.
        -- intro Hm. apply Hin in Hm. destruct Hm as (c' & Hc' & Hp).
           exists c'. split; [now right | exact Hp].
        -- intros (c' & [E|Hc'] & Hp).
           ++ injection E as <- <-. apply Hiff in Hp. discriminate.
           ++ apply Hin. now exists c'.
    + destruct pos; simpl.
      * intros x [<-|Hx]; [now left | right; now apply Hincl].
      * intros x Hx. right. now apply Hincl.
Qed.






(** ** The function *)

Section Facts.

Variable metric_exn : Type.
Variable metric : list column -> list column -> Q + metric_exn.

(** With two distinct tables that both carry the identifier column, the
    two deletions go through and the rest runs on the shortened
    tables. *)
Lemma score_after_deletions (solution submission : nat) (id : string)
    (h : gmap nat DataFrame) (tsol tsub : DataFrame) :
  solution <> submission ->
  h !! solution = Some tsol ->
  h !! submission = Some tsub ->
  has_column id tsol = true ->
  has_column id tsub = true ->
  score metric solution submission id h =
    (<[submission := drop_column id tsub]>
       (<[solution := drop_column id tsol]> h),
     score_body metric (drop_column id tsol) (drop_column id tsub)).
Proof.
  intros Hne Hsol Hsub Hcs Hcb. unfold score, del_column.
  rewrite Hsol, Hcs.
  rewrite lookup_insert_ne by exact Hne. rewrite Hsub, Hcb.
  rewrite lookup_insert_ne by (intro E; apply Hne; now symmetry).
  now rewrite !lookup_insert_eq.
Qed.

(** A missing identifier column in the solution stops the call before
    anything is changed. *)
Lemma score_key_error_solution (solution submission : nat) (id : string)
    (h : gmap nat DataFrame) (tsol : DataFrame) :
  h !! solution = Some tsol ->
  has_column id tsol = false ->
  score metric solution submission id h = (h, Raise KeyError).
Proof.
  intros Hsol Hc. unfold score, del_column. now rewrite Hsol, Hc.
Qed.

(** Passing one table for both arguments fails at the second deletion,
    after the first has taken place. *)
Lemma score_aliased (table : nat) (id : string)
    (h : gmap nat DataFrame) (t : DataFrame) :
  h !! table = Some t ->
  has_column id t = true ->
  score metric table table id h =
    (<[table := drop_column id t]> h, Raise KeyError).
Proof.
  intros Ht Hc. unfold score, del_column.
  now rewrite Ht, Hc, lookup_insert_eq, has_column_drop.
Qed.

(** First half of C6: a submission column that is not numeric makes the
    call raise the participant-visible error. *)
Lemma score_rejects_non_numeric_column (solution submission : nat)
    (id : string) (h : gmap nat DataFrame) (tsol tsub : DataFrame)
    (n : string) (v : list string) :
  solution <> submission ->
  h !! solution = Some tsol ->
  h !! submission = Some tsub ->
  has_column id tsol = true ->
  has_column id tsub = true ->
  In (n, ObjectCol v) (drop_column id tsub) ->
  snd (score metric solution submission id h) = Raise ParticipantVisibleError.
Proof.
  intros Hne Hsol Hsub Hcs Hcb Hin.
  rewrite (score_after_deletions _ _ _ _ _ _ Hne Hsol Hsub Hcs Hcb).
  cbn [snd]. unfold score_body, values_dtype.
  rewrite find_common_type_object; [reflexivity|].
  apply in_map_iff. now exists (n, ObjectCol v).
Qed.


(** C9 (amended): the call changes the caller's tables in place.  With
    two distinct tables that carry the identifier column, afterwards both
    are the old tables without that column -- every other column is still
    there under its label -- and no other table of the store is touched;
    the store is not the one before the call. *)
Theorem score_deletes_row_id_in_place (solution submission : nat)
    (id : string) (h : gmap nat DataFrame) (tsol tsub : DataFrame) :
  solution <> submission ->
  h !! solution = Some tsol ->
  h !! submission = Some tsub ->
  has_column id tsol = true ->
  has_column id tsub = true ->
  let h' := fst (score metric solution submission id h) in
  h' !! solution = Some (drop_column id tsol) /\
  h' !! submission = Some (drop_column id tsub) /\
  (forall l, l <> solution -> l <> submission -> h' !! l = h !! l) /\
  (forall t name, name <> id ->
     get_column name (drop_column id t) = get_column name t) /\
  (forall t, has_column id (drop_column id t) = false) /\
  h' <> h.
Proof.
  intros Hne Hsol Hsub Hcs Hcb h'. unfold h'.
  rewrite (score_after_deletions _ _ _ _ _ _ Hne Hsol Hsub Hcs Hcb).
  cbn [fst].
  assert (H1 : (<[submission := drop_column id tsub]>
                  (<[solution := drop_column id tsol]> h)) !! solution
               = Some (drop_column id tsol)).
  { rewrite lookup_insert_ne by (intro E; apply Hne; now symmetry).
    apply lookup_insert_eq. }
  split; [exact H1|]. split; [apply lookup_insert_eq|].
  split; [|split; [|split]].
  - intros l Hl1 Hl2.
    rewrite lookup_insert_ne by (intro E; apply Hl2; now symmetry).
    apply lookup_insert_ne. intro E; apply Hl1; now symmetry.
  - intros t name Hn. now apply get_column_drop_ne.
  - intro t. apply has_column_drop.
  - intro E. rewrite E, Hsol in H1. injection H1 as H1.
    pose proof (has_column_drop id tsol) as Hd. rewrite <- H1 in Hd.
    congruence.
Qed.

End Facts.

Lemma sample_store_lookup_0 (submission : DataFrame) :
  sample_store submission !! 0 = Some sample_solution.
Proof.
  unfold sample_store. rewrite lookup_insert_ne by discriminate.
  apply lookup_insert_eq.
Qed.

Lemma sample_store_lookup_1 (submission : DataFrame) :
  sample_store submission !! 1 = Some submission.
Proof. unfold sample_store. apply lookup_insert_eq. Qed.

Lemma zero_ne_one : 0 <> 1.
Proof. discriminate. Defined.

(** C6, at the failing input: after the identifier column is dropped,
    every column of the submission is numeric on its own -- the list of bad
    columns the code builds for its message is empty -- and the call still
    raises the participant-visible error, because the boolean column next
    to the float columns makes [submission.values] an [object] array. *)
Theorem score_rejects_bool_next_to_float :
  let sub := drop_column "row_id" bool_float_submission in
  forallb (fun p => is_numeric_dtype (col_dtype (snd p))) sub = true /\
  bad_dtypes sub = [] /\
  snd (score half_metric 0 1 "row_id" (sample_store bool_float_submission))
    = Raise ParticipantVisibleError.
Proof.
  cbv zeta. split; [reflexivity|]. split; [reflexivity|].
  rewrite (score_after_deletions Empty_set half_metric 0 1 "row_id" _
             sample_solution bool_float_submission zero_ne_one
             (sample_store_lookup_0 _) (sample_store_lookup_1 _)
             eq_refl eq_refl).
  reflexivity.
Qed.

(** C9 as stated fails: after a call on the sample tables the caller's
    solution table has lost its identifier column. *)
Lemma score_mutates_callers_tables :
  let h := sample_store sample_submission in
  let h' := fst (score half_metric 0 1 "row_id" h) in
  h !! 0 = Some sample_solution /\
  has_column "row_id" sample_solution = true /\
  h' !! 0 = Some (drop_column "row_id" sample_solution) /\
  has_column "row_id" (drop_column "row_id" sample_solution) = false /\
  h' <> h.
Proof.
  cbv zeta.
  rewrite (score_after_deletions Empty_set half_metric 0 1 "row_id" _
             sample_solution sample_submission zero_ne_one
             (sample_store_lookup_0 _) (sample_store_lookup_1 _)
             eq_refl eq_refl).
  cbn [fst].
  assert (H1 : (<[1 := drop_column "row_id" sample_submission]>
                  (<[0 := drop_column "row_id" sample_solution]>
                     (sample_store sample_submission))) !! 0
               = Some (drop_column "row_id" sample_solution)).
  { rewrite lookup_insert_ne by discriminate. apply lookup_insert_eq. }
  split; [apply sample_store_lookup_0|]. split; [reflexivity|].
  split; [exact H1|]. split; [reflexivity|].
  intro E. rewrite E, sample_store_lookup_0 in H1. discriminate H1.
Qed.

Lemma sample_solution_indicator :
  Forall (fun p => indicator (snd p)) (drop_column "row_id" sample_solution).
Proof.
  repeat constructor; cbn [snd]; eexists; (split; [reflexivity|]);
    repeat constructor; ((left; reflexivity) || (right; reflexivity)).
Qed.



Lemma score_deletes_row_id_in_place_witness :
  let h := sample_store sample_submission in
  0 <> 1 /\
  h !! 0 = Some sample_solution /\
  h !! 1 = Some sample_submission /\
  has_column "row_id" sample_solution = true /\
  has_column "row_id" sample_submission = true /\
  fst (score half_metric 0 1 "row_id" h) !! 0
    = Some (drop_column "row_id" sample_solution).
Proof.
  cbv zeta.
  split; [exact zero_ne_one|].
  split; [apply sample_store_lookup_0|].
  split; [apply sample_store_lookup_1|].
  do 2 (split; [reflexivity|]).
  exact (proj1 (score_deletes_row_id_in_place Empty_set half_metric 0 1
                  "row_id" (sample_store sample_submission)
                  sample_solution sample_submission zero_ne_one
                  (sample_store_lookup_0 _) (sample_store_lookup_1 _)
                  eq_refl eq_refl)).
Defined.

End ScoringFacts.

(* ================================================================== *)
(** * More about the training loop                                     *)
(* ================================================================== *)

Module TrainingMore.
Import Training TrainingAux TrainingFacts.

Section More.

Variable params : Type.
Variable obs : nat -> epoch_obs params.
Variable fs0 : option (checkpoint params).

Lemma epoch_body_history (k : nat) (st : loop_state params) :
  let h := hist st in
  let h' := hist (fst (epoch_body obs k st)) in
  h_train_loss h' = h_train_loss h ++ [ob_train_loss (obs k)] /\
  h_train_acc h' = h_train_acc h ++ [ob_train_acc (obs k)] /\
  h_val_loss h' = h_val_loss h ++ [ob_val_loss (obs k)] /\
  h_val_acc h' = h_val_acc h ++ [ob_val_acc (obs k)].
Proof.
  unfold epoch_body. cbv zeta.
  destruct (Qgt_bool (epoch_val_auc obs k st) (best_auc st));
    repeat split; reflexivity.
Qed.

Lemma StronglySorted_snoc {A : Type} (R : A -> A -> Prop)
    (l : list A) (x : A) :
  StronglySorted R l -> Forall (fun a => R a x) l ->
  StronglySorted R (l ++ [x]).
Proof.
  induction 1 as [|a l Hl IH Ha]; intro Hx; simpl.
  - constructor; constructor.
  - inversion Hx; subst. constructor; [now apply IH|].
    apply Forall_app. split; [exact Ha | now constructor].
Qed.

Lemma leading_false_le (l : list bool) : leading_false l <= length l.
Proof.
  induction l as [|[|] l IH]; simpl; lia.
Qed.

(** The part of the loop invariant that concerns the checkpoint log and
    the four other history lists. *)
Lemma run_inv_saves (k : nat) :
  let st := fst (run obs fs0 k) in
  let h := hist st in
  let aucs := h_val_auc h in
  (length (h_train_loss h) = length aucs /\
   length (h_train_acc h) = length aucs /\
   length (h_val_loss h) = length aucs /\
   length (h_val_acc h) = length aucs) /\
  match last_save st with
  | None => saves st = [] /\ best_auc st = 0%Q
  | Some ck =>
      ck_val_auc ck = best_auc st /\
      model_state_dict ck = ob_params (obs (ck_epoch ck)) /\
      nth_error aucs (ck_epoch ck) = Some (best_auc st) /\
      (forall j, j < ck_epoch ck -> (nth j aucs 0 < best_auc st)%Q)
  end /\
  length aucs = wait st + covered st /\
  StronglySorted improves_over (saves st) /\
  Forall (fun ck => ck_epoch ck < length aucs /\
                    (ck_val_auc ck <= best_auc st)%Q /\
                    nth_error aucs (ck_epoch ck) = Some (ck_val_auc ck) /\
                    model_state_dict ck = ob_params (obs (ck_epoch ck)))
         (saves st).
Proof.
  induction k as [|k IH].
  - cbn. repeat split; constructor.
  - pose proof (run_inv params obs fs0 k) as Hinv.
    rewrite run_S. destruct (run obs fs0 k) as [st c].
    cbn [fst snd] in IH, Hinv. cbv zeta in IH, Hinv.
    destruct c; [|exact IH].
    destruct Hinv as (_ & _ & _ & Hb & _ & _ & _ & Hk & _).
    destruct IH as ((L1 & L2 & L3 & L4) & Hlast & Hcov & Hsort & Hall).
    destruct (epoch_body_history k st) as (E1 & E2 & E3 & E4).
    destruct (epoch_body_cases params obs k st) as (Ha & _ & Hcase).
    cbv zeta in *.
    destruct (epoch_body obs k st) as [st' c']. cbn [fst snd] in *.
    set (v := epoch_val_auc obs k st) in *.
    assert (Hle : forall j, j < k ->
              (nth j (h_val_auc (hist st)) 0 <= best_auc st)%Q).
    { intros j Hj. destruct Hb as [Hub _]. rewrite Forall_forall in Hub.
      apply Hub. right. apply nth_In. lia. }
    split.
    { rewrite E1, E2, E3, E4, Ha, !length_app. simpl. lia. }
    destruct Hcase as [(Hgt & Hbest & Hwait & Hsav & _)
                      |(Hgt & Hbest & Hwait & Hsav & _)].
    + apply Qgt_bool_iff in Hgt.
      assert (Hls : last_save st'
                    = Some (Build_checkpoint params (ob_params (obs k)) k v)).
      { unfold last_save. rewrite Hsav. apply last_map_Some_snoc. }
      unfold covered. rewrite Hls. cbn [ck_val_auc ck_epoch model_state_dict].
      rewrite Hbest, Ha, Hwait, Hsav.
      split; [|split; [|split]].
      * split; [reflexivity|]. split; [reflexivity|]. split.
        -- rewrite nth_error_app2 by lia. rewrite Hk, Nat.sub_diag. reflexivity.
        -- intros j Hj. rewrite app_nth1 by lia.
           eapply Qle_lt_trans; [apply Hle; exact Hj | exact Hgt].
      * rewrite length_app. simpl. lia.
      * apply StronglySorted_snoc; [exact Hsort|].
        eapply Forall_impl; [|exact Hall]. cbv beta. intros ck (He & Hv & _).
        split; cbn [ck_epoch ck_val_auc]; [lia|].
        eapply Qle_lt_trans; eauto.
      * apply Forall_app. split.
        -- eapply Forall_impl; [|exact Hall]. cbv beta.
           intros ck (He & Hv & Hn & Hp).
           rewrite length_app. simpl. split; [lia|]. split.
           ++ apply Qlt_le_weak. eapply Qle_lt_trans; eauto.
           ++ split; [|exact Hp]. now rewrite nth_error_app1 by exact He.
        -- constructor; [|constructor].
           cbn [ck_epoch ck_val_auc model_state_dict].
           rewrite length_app. simpl. split; [lia|].
           split; [apply Qle_refl|]. split; [|reflexivity].
           rewrite nth_error_app2 by lia. rewrite Hk, Nat.sub_diag.
           reflexivity.
    + assert (Hls : last_save st' = last_save st).
      { unfold last_save. now rewrite Hsav. }
      unfold covered in *. rewrite Hls, Hbest, Ha, Hwait, Hsav.
      split; [|split; [|split]].
      * destruct (last_save st) as [ck|]; [|exact Hlast].
        destruct Hlast as (Hv & Hp & Hn & Hj).
        assert (He : ck_epoch ck < length (h_val_auc (hist st))).
        { apply nth_error_Some. congruence. }
        split; [exact Hv|]. split; [exact Hp|]. split.
        -- rewrite nth_error_app1 by exact He. exact Hn.
        -- intros j Hlt. rewrite app_nth1 by lia. now apply Hj.
      * rewrite length_app. simpl. lia.
      * exact Hsort.
      * eapply Forall_impl; [|exact Hall]. cbv beta.
        intros ck (He & Hv & Hn & Hp).
        rewrite length_app. simpl. split; [lia|]. split; [exact Hv|].
        split; [|exact Hp]. now rewrite nth_error_app1 by exact He.
Qed.

Lemma last_map_Some_default {A : Type} (l : list A) (a : A) (d : option A) :
  List.last (map Some l) None = Some a -> List.last (map Some l) d = Some a.
Proof.
  destruct l as [|b l0] eqn:El; [discriminate|]. rewrite <- El.
  destruct (@exists_last _ l) as (l' & x & ->); [congruence|].
  rewrite !last_map_Some_snoc. auto.
Qed.

Lemma last_save_None_saves (st : loop_state params) :
  last_save st = None -> saves st = [].
Proof.
  unfold last_save. destruct (saves st) as [|b l0] eqn:El; [reflexivity|].
  rewrite <- El.
  destruct (@exists_last _ (saves st)) as (l' & x & E); [congruence|].
  rewrite E, last_map_Some_snoc. discriminate.
Qed.

(** A loop in which no epoch raises appends to each of the five history
    lists, and calls the scheduler, exactly once per executed epoch; at
    least 7 and at most 50 epochs are executed. *)
Lemma history_lengths :
  let final := for_epochs obs (seq 0 num_epochs) (init fs0) in
  let h := hist (fst final) in
  let n := length (h_val_auc h) in
  length (h_train_loss h) = n /\
  length (h_train_acc h) = n /\
  length (h_val_loss h) = n /\
  length (h_val_acc h) = n /\
  sched (fst final) = h_val_auc h /\
  patience <= n <= num_epochs.
Proof.
  intros final h n.
  pose proof (run_inv params obs fs0 num_epochs) as Hinv.
  pose proof (run_inv_saves num_epochs) as Hsv.
  change (run obs fs0 num_epochs) with final in Hinv, Hsv.
  cbv zeta in Hinv, Hsv. fold h in Hinv, Hsv. fold n in Hinv, Hsv.
  destruct Hinv as (Hlen & Hs & _ & _ & _ & _ & _ & Hc).
  destruct Hsv as ((L1 & L2 & L3 & L4) & _ & Hcov & _).
  do 4 (split; [assumption|]). split; [exact Hs|].
  split; [|exact Hlen].
  destruct (snd final).
  - destruct Hc as [Hn _]. rewrite Hn. unfold patience, num_epochs. lia.
  - destruct Hc as [_ Hw]. lia.
Qed.

(** When some recorded validation AUC is above 0, the file at the
    checkpoint path after the loop -- whatever was there before -- is the
    checkpoint of the first epoch that reached the highest validation AUC
    of the run. *)
Lemma best_file_first_best_epoch :
  let final := fst (for_epochs obs (seq 0 num_epochs) (init fs0)) in
  let aucs := h_val_auc (hist final) in
  Exists (fun v => (0 < v)%Q) aucs ->
  exists e best,
    nth_error aucs e = Some best /\
    Forall (fun v => (v <= best)%Q) aucs /\
    (forall j, j < e -> (nth j aucs 0 < best)%Q) /\
    best_file final = Some (Build_checkpoint params (ob_params (obs e)) e best).
Proof.
  intros final aucs Hex.
  pose proof (run_inv params obs fs0 num_epochs) as Hinv.
  pose proof (run_inv_saves num_epochs) as Hsv.
  change (fst (run obs fs0 num_epochs)) with final in Hinv, Hsv.
  cbv zeta in Hinv, Hsv. fold aucs in Hinv, Hsv.
  destruct Hinv as (_ & _ & _ & [Hub _] & Hf & _).
  destruct Hsv as (_ & Hlast & _).
  inversion Hub as [|? ? _ Hub']; subst.
  destruct (last_save final) as [ck|] eqn:Hls.
  - destruct Hlast as (Hv & Hp & Hn & Hj).
    assert (Hfile : best_file final
              = Some (Build_checkpoint params (ob_params (obs (ck_epoch ck)))
                        (ck_epoch ck) (best_auc final))).
    { rewrite Hf. rewrite (last_map_Some_default _ ck fs0 Hls).
      destruct ck as [p e v]. cbn in *. now subst. }
    exists (ck_epoch ck), (best_auc final).
    split; [exact Hn|]. split; [exact Hub'|]. split; [exact Hj|].
    exact Hfile.
  - destruct Hlast as [_ Hbest]. exfalso.
    apply Exists_exists in Hex. destruct Hex as (v & Hin & Hpos).
    rewrite Forall_forall in Hub'. apply Hub' in Hin.
    rewrite Hbest in Hin. exact (Qlt_not_le _ _ Hpos Hin).
Qed.

(** The file at the checkpoint path after the loop is the last checkpoint
    of the run, or else the file that was there before; none is there
    exactly when none was there before and no recorded validation AUC is
    above 0. *)
Lemma best_file_after_loop :
  let final := fst (for_epochs obs (seq 0 num_epochs) (init fs0)) in
  best_file final
    = match last_save final with Some ck => Some ck | None => fs0 end /\
  (best_file final = None <->
   fs0 = None /\ Forall (fun v => (v <= 0)%Q) (h_val_auc (hist final))).
Proof.
  intros final.
  pose proof (run_inv params obs fs0 num_epochs) as Hinv.
  pose proof (run_inv_saves num_epochs) as Hsv.
  change (fst (run obs fs0 num_epochs)) with final in Hinv, Hsv.
  cbv zeta in Hinv, Hsv.
  destruct Hinv as (_ & _ & _ & [Hub _] & Hf & _ & Hpos & _).
  destruct Hsv as (_ & Hlast & _).
  inversion Hub as [|? ? _ Hub']; subst.
  split.
  - destruct (last_save final) as [ck|] eqn:Hls.
    + rewrite Hf. exact (last_map_Some_default _ ck fs0 Hls).
    + destruct Hlast as [Hs _]. rewrite Hf, Hs. reflexivity.
  - split.
    + intro Hbf. destruct (last_save final) as [ck|] eqn:Hls.
      * rewrite (last_map_Some_default _ ck fs0 Hls) in Hf. congruence.
      * destruct Hlast as [Hs Hbest]. rewrite Hs in Hf. cbn in Hf.
        split; [congruence|]. now rewrite Hbest in Hub'.
    + intros [Hfs Hall].
      assert (Hs : saves final = []).
      { destruct (saves final) as [|ck l]; [reflexivity|].
        inversion Hpos as [|? ? [Hin Hp] _]; subst.
        rewrite Forall_forall in Hall. apply Hall in Hin.
        exfalso. exact (Qlt_not_le _ _ Hp Hin). }
      rewrite Hf, Hs, Hfs. reflexivity.
Qed.

(** X4: the checkpoints written during a run come from strictly later
    epochs with strictly higher validation AUC, one after the other, and
    each holds the parameters and the recorded AUC of its epoch. *)
Theorem checkpoints_strictly_improve :
  let final := fst (for_epochs obs (seq 0 num_epochs) (init fs0)) in
  let aucs := h_val_auc (hist final) in
  StronglySorted improves_over (saves final) /\
  Forall (fun ck => nth_error aucs (ck_epoch ck) = Some (ck_val_auc ck) /\
                    model_state_dict ck = ob_params (obs (ck_epoch ck)))
         (saves final).
Proof.
  intros final aucs.
  pose proof (run_inv_saves num_epochs) as Hsv.
  change (fst (run obs fs0 num_epochs)) with final in Hsv.
  cbv zeta in Hsv. fold aucs in Hsv.
  destruct Hsv as (_ & _ & _ & Hsort & Hall).
  split; [exact Hsort|].
  eapply Forall_impl; [|exact Hall]. cbv beta. tauto.
Qed.

(** X5: when the loop stops early, exactly 7 epochs were executed after
    the epoch of the last checkpoint (after the start of the loop when no
    checkpoint was written). *)
Theorem early_stop_seven_after_best :
  let final := for_epochs obs (seq 0 num_epochs) (init fs0) in
  snd final = Break ->
  length (h_val_auc (hist (fst final))) = covered (fst final) + patience.
Proof.
  intros final Hbrk.
  pose proof (run_inv params obs fs0 num_epochs) as Hinv.
  pose proof (run_inv_saves num_epochs) as Hsv.
  change (run obs fs0 num_epochs) with final in Hinv, Hsv.
  cbv zeta in Hinv, Hsv.
  destruct Hinv as (_ & _ & _ & _ & _ & _ & _ & Hc).
  destruct Hsv as (_ & _ & Hcov & _).
  rewrite Hbrk in Hc. destruct Hc as [_ Hw]. lia.
Qed.

End More.

Section Raised.

Variable params : Type.
Variable phases : nat -> option (epoch_obs params).
Variable loadable : checkpoint params -> bool.
Variable fs0 : option (checkpoint params).

(** X1: a loop that ends without an exception has appended to each of the
    five history lists, and called the scheduler, exactly once per
    executed epoch; at least 7 and at most 50 epochs were executed, and
    none of them raised. *)
Theorem history_one_entry_per_epoch (final : loop_state params) (c : ctrl) :
  for_epochs_raising phases (seq 0 num_epochs) (init fs0) = Some (final, c) ->
  let h := hist final in
  let n := length (h_val_auc h) in
  length (h_train_loss h) = n /\
  length (h_train_acc h) = n /\
  length (h_val_loss h) = n /\
  length (h_val_acc h) = n /\
  sched final = h_val_auc h /\
  patience <= n <= num_epochs /\
  forall e, e < n -> phases e <> None.
Proof.
  intros H h n.
  destruct (raising_run params phases fs0 final c H) as (d & Hrun & Hph).
  pose proof (history_lengths params (observed d phases) fs0) as Hl.
  cbv zeta in Hl. unfold run in Hrun. rewrite Hrun in Hl. cbn [fst] in Hl.
  destruct Hl as (L1 & L2 & L3 & L4 & Hs & Hn).
  do 4 (split; [assumption|]). split; [exact Hs|]. split; [exact Hn|].
  intros e He. rewrite (Hph e He). discriminate.
Qed.

(** X2: when the loop ends without an exception and some recorded
    validation AUC is above 0, the file read back -- whatever was at the
    checkpoint path before -- is the checkpoint of the first epoch that
    reached the highest validation AUC of the run; the function returns
    the parameters of that epoch if the file can be loaded, and raises
    otherwise. *)
Theorem returned_model_is_first_best_epoch
    (final : loop_state params) (c : ctrl) :
  for_epochs_raising phases (seq 0 num_epochs) (init fs0) = Some (final, c) ->
  let aucs := h_val_auc (hist final) in
  Exists (fun v => (0 < v)%Q) aucs ->
  exists e o best,
    phases e = Some o /\
    nth_error aucs e = Some best /\
    Forall (fun v => (v <= best)%Q) aucs /\
    (forall j, j < e -> (nth j aucs 0 < best)%Q) /\
    best_file final = Some (Build_checkpoint params (ob_params o) e best) /\
    train_precomputed_crnn phases loadable true fs0 =
      if loadable (Build_checkpoint params (ob_params o) e best)
      then Returned (Some (ob_params o, hist final))
      else Raised LoadError.
Proof.
  intros H aucs Hex.
  destruct (raising_run params phases fs0 final c H) as (d & Hrun & Hph).
  pose proof (best_file_first_best_epoch params (observed d phases) fs0) as Hb.
  cbv zeta in Hb. unfold run in Hrun. rewrite Hrun in Hb. cbn [fst] in Hb.
  destruct (Hb Hex) as (e & best & Hn & Hub & Hj & Hfile).
  exists e, (observed d phases e), best.
  split.
  { apply Hph. apply nth_error_Some. unfold aucs. rewrite Hn. discriminate. }
  split; [exact Hn|]. split; [exact Hub|]. split; [exact Hj|].
  split; [exact Hfile|].
  rewrite (train_completed params phases loadable fs0 final c H), Hfile.
  reflexivity.
Qed.

(** X3: after a loop that ended without an exception, the reload fails
    for want of a file exactly when no file was at the checkpoint path
    before the run and no recorded validation AUC is above 0; it fails
    otherwise exactly when the file then at the path -- the last
    checkpoint of the run, or else the file that was there before --
    cannot be loaded. *)
Theorem reload_fails_iff (final : loop_state params) (c : ctrl) :
  for_epochs_raising phases (seq 0 num_epochs) (init fs0) = Some (final, c) ->
  let file := match last_save final with Some ck => Some ck | None => fs0 end in
  (train_precomputed_crnn phases loadable true fs0 = Raised FileNotFoundError
   <-> fs0 = None /\ Forall (fun v => (v <= 0)%Q) (h_val_auc (hist final))) /\
  (train_precomputed_crnn phases loadable true fs0 = Raised LoadError
   <-> exists ck, file = Some ck /\ loadable ck = false) /\
  train_precomputed_crnn phases loadable true fs0 <> Raised EpochError.
Proof.
  intros H file.
  destruct (raising_run params phases fs0 final c H) as (d & Hrun & _).
  pose proof (best_file_after_loop params (observed d phases) fs0) as Hb.
  cbv zeta in Hb. unfold run in Hrun. rewrite Hrun in Hb. cbn [fst] in Hb.
  fold file in Hb. destruct Hb as [Hfile Hnone].
  rewrite (train_completed params phases loadable fs0 final c H).
  rewrite <- Hfile. split; [|split].
  - rewrite <- Hnone.
    destruct (best_file final) as [ck|]; [|tauto].
    destruct (loadable ck); split; discriminate.
  - destruct (best_file final) as [ck|].
    + destruct (loadable ck) eqn:El; split.
      * discriminate.
      * intros (ck' & E & El'). injection E as <-. congruence.
      * intros _. now exists ck.
      * reflexivity.
    + split; [discriminate|]. intros (ck & E & _). discriminate.
  - destruct (best_file final) as [ck|]; [|discriminate].
    destruct (loadable ck); discriminate.
Qed.

End Raised.

Lemma history_one_entry_per_epoch_witness :
  let final := fst (for_epochs failing_obs (seq 0 num_epochs) (init None)) in
  for_epochs_raising (completing failing_obs) (seq 0 num_epochs) (init None)
    = Some (final, Break) /\
  sched final = h_val_auc (hist final) /\
  length (h_val_auc (hist final)) = 7.
Proof.
  cbv zeta.
  assert (Hrun : for_epochs_raising (completing failing_obs)
                   (seq 0 num_epochs) (init None)
                 = Some (fst (for_epochs failing_obs (seq 0 num_epochs)
                                (init None)), Break)).
  { vm_compute. reflexivity. }
  split; [exact Hrun|].
  destruct (history_one_entry_per_epoch unit (completing failing_obs) None
              _ Break Hrun) as (_ & _ & _ & _ & Hs & _).
  split; [exact Hs | reflexivity].
Defined.

Lemma returned_model_is_first_best_epoch_witness :
  let phases := completing half_then_quarter_obs in
  let final :=
    fst (for_epochs half_then_quarter_obs (seq 0 num_epochs) (init None)) in
  for_epochs_raising phases (seq 0 num_epochs) (init None)
    = Some (final, Break) /\
  Exists (fun v => (0 < v)%Q) (h_val_auc (hist final)) /\
  exists e o best,
    phases e = Some o /\
    nth_error (h_val_auc (hist final)) e = Some best /\
    train_precomputed_crnn phases (fun _ => true) true None =
      Returned (Some (ob_params o, hist final)).
Proof.
  cbv zeta.
  assert (Hrun : for_epochs_raising (completing half_then_quarter_obs)
                   (seq 0 num_epochs) (init None)
                 = Some (fst (for_epochs half_then_quarter_obs
                                (seq 0 num_epochs) (init None)), Break)).
  { vm_compute. reflexivity. }
  assert (Hex : Exists (fun v => (0 < v)%Q)
            (h_val_auc (hist (fst (for_epochs half_then_quarter_obs
                                     (seq 0 num_epochs) (init None)))))).
  { apply Exists_exists. exists (1 # 2)%Q. split; [|reflexivity].
    vm_compute. now left. }
  split; [exact Hrun|]. split; [exact Hex|].
  destruct (returned_model_is_first_best_epoch unit
              (completing half_then_quarter_obs) (fun _ => true) None
              _ Break Hrun Hex)
    as (e & o & best & Hp & Hn & _ & _ & _ & Hret).
  exists e, o, best. split; [exact Hp|]. split; [exact Hn | exact Hret].
Defined.

Lemma reload_fails_iff_witness :
  let final :=
    fst (for_epochs half_then_quarter_obs (seq 0 num_epochs) (init None)) in
  for_epochs_raising (completing half_then_quarter_obs) (seq 0 num_epochs)
    (init None) = Some (final, Break) /\
  train_precomputed_crnn (completing half_then_quarter_obs) (fun _ => false)
    true None = Raised LoadError.
Proof.
  cbv zeta.
  assert (Hrun : for_epochs_raising (completing half_then_quarter_obs)
                   (seq 0 num_epochs) (init None)
                 = Some (fst (for_epochs half_then_quarter_obs
                                (seq 0 num_epochs) (init None)), Break)).
  { vm_compute. reflexivity. }
  split; [exact Hrun|].
  destruct (reload_fails_iff unit (completing half_then_quarter_obs)
              (fun _ => false) None _ Break Hrun) as (_ & Hload & _).
  apply Hload. eexists. split; [vm_compute; reflexivity | reflexivity].
Defined.

Lemma early_stop_seven_after_best_witness :
  let final := for_epochs failing_obs (seq 0 num_epochs) (init None) in
  snd final = Break /\
  length (h_val_auc (hist (fst final))) = covered (fst final) + patience.
Proof.
  cbv zeta. split; [reflexivity|].
  exact (early_stop_seven_after_best unit failing_obs None eq_refl).
Defined.

End TrainingMore.

(* ================================================================== *)
(** * More about the filtering cell and the class count                *)
(* ================================================================== *)

Module FilteringMore.
Import Filtering Labels FilteringFacts.

(** The retained labels, whichever branch the cell takes. *)
Lemma filter_singletons_labels {feature : Type}
    (X X' : list feature) (y y' : list nat) :
  filter_singletons X y = Some (X', y') ->
  y' = List.filter (fun c => 2 <=? count y c) y.
Proof.
  unfold filter_singletons.
  destruct (any_eq_1 (bincount y)) eqn:Hany.
  - assert (Hmask : isin y (where_ge_2 (bincount y))
                    = map (fun c => 2 <=? count y c) y).
    { unfold isin. apply map_ext. intro c. apply isin_where_ge_2. }
    rewrite Hmask, mask_select_self.
    destruct (mask_select _ X); [|discriminate].
    intro H. now injection H as _ <-.
  - intro H. injection H as _ <-. symmetry. apply filter_all.
    intros c Hc. apply Nat.leb_le. now apply no_singleton_all_ge_2.
Qed.

Lemma any_eq_1_false (y : list nat) :
  (forall c, count y c <> 1) -> any_eq_1 (bincount y) = false.
Proof.
  intro H. unfold any_eq_1.
  destruct (existsb (Nat.eqb 1) (bincount y)) eqn:E; [|reflexivity].
  apply existsb_exists in E. destruct E as (x & Hx & E).
  apply Nat.eqb_eq in E. subst x.
  apply (In_nth _ _ 0) in Hx. destruct Hx as (i & _ & Hi).
  rewrite bincount_nth in Hi. now apply H in Hi.
Qed.

(** X6: the filtering step is idempotent: run again on its own result it
    finds no class of one example and changes nothing. *)
Theorem filter_singletons_idempotent {feature : Type}
    (X X' : list feature) (y y' : list nat) :
  filter_singletons X y = Some (X', y') ->
  any_eq_1 (bincount y') = false /\
  filter_singletons X' y' = Some (X', y').
Proof.
  intro H. apply filter_singletons_labels in H.
  assert (Hany : any_eq_1 (bincount y') = false).
  { apply any_eq_1_false. intro c. rewrite H, count_filter.
    destruct (Nat.leb_spec 2 (count y c)); lia. }
  split; [exact Hany|]. unfold filter_singletons. now rewrite Hany.
Qed.

Lemma filter_singletons_idempotent_witness :
  filter_singletons ["a"; "b"; "c"; "d"; "e"]%string [3; 1; 3; 0; 5]
    = Some (["a"; "c"]%string, [3; 3]) /\
  filter_singletons ["a"; "c"]%string [3; 3]
    = Some (["a"; "c"]%string, [3; 3]).
Proof.
  split; [reflexivity|].
  exact (proj2 (filter_singletons_idempotent
                  ["a"; "b"; "c"; "d"; "e"]%string ["a"; "c"]%string
                  [3; 1; 3; 0; 5] [3; 3] eq_refl)).
Defined.

(** ** Counting the removed examples *)

Lemma list_sum_map_add (g h : nat -> nat) (a d : nat) (l : list nat) :
  (forall c, g c = h c + (if Nat.eq_dec a c then d else 0)) ->
  list_sum (map g l) = list_sum (map h l) + count l a * d.
Proof.
  intro H. induction l as [|c l IH]; [reflexivity|].
  change (list_sum (map g (c :: l))) with (g c + list_sum (map g l)).
  change (list_sum (map h (c :: l))) with (h c + list_sum (map h l)).
  rewrite IH, H. simpl.
  destruct (Nat.eq_dec c a) as [->|Hne].
  - destruct (Nat.eq_dec a a); [lia|contradiction].
  - destruct (Nat.eq_dec a c); [congruence|lia].
Qed.

Lemma count_seq (n a : nat) : a < n -> count (seq 0 n) a = 1.
Proof.
  intro H. apply NoDup_count_occ'; [apply seq_NoDup|].
  apply in_seq. lia.
Qed.

(** Examples selected by a predicate on the class, counted class by
    class. *)
Lemma length_filter_by_class (f : nat -> bool) (y : list nat) (n : nat) :
  Forall (fun c => c < n) y ->
  length (List.filter f y) =
  list_sum (map (fun c => if f c then count y c else 0) (seq 0 n)).
Proof.
  induction 1 as [|a y Ha _ IH].
  - simpl. induction (seq 0 n) as [|c l IHl]; [reflexivity|].
    simpl. rewrite <- IHl. now destruct (f c).
  - rewrite (list_sum_map_add _ (fun c => if f c then count y c else 0)
               a (if f a then 1 else 0)).
    + rewrite <- IH, count_seq by exact Ha. simpl.
      destruct (f a); simpl; lia.
    + intro c. simpl. destruct (Nat.eq_dec a c) as [->|Hne].
      * destruct (f c); lia.
      * destruct (f c); lia.
Qed.

Lemma length_filter_indicator (f : nat -> bool) (l : list nat) :
  length (List.filter f l) = list_sum (map (fun c => if f c then 1 else 0) l).
Proof.
  induction l as [|c l IH]; [reflexivity|].
  simpl. destruct (f c); simpl; now rewrite IH.
Qed.

(** The classes of exactly one example, read off [bincount]. *)
Lemma n_singleton_classes_bincount (y : list nat) (n : nat) :
  y <> [] -> n = S (list_max y) ->
  n_singleton_classes (bincount y) =
  length (List.filter (fun c => count y c =? 1) (seq 0 n)).
Proof.
  intros Hne ->. unfold n_singleton_classes, bincount.
  destruct y as [|a y']; [congruence|].
  rewrite filter_map_swap, length_map.
  f_equal. apply filter_ext. intro c. apply Nat.eqb_sym.
Qed.

(** X7: the two numbers the cell prints agree, and both are the number of
    examples the step takes away: the mask rejects as many examples as
    there are classes with exactly one example. *)
Theorem removed_examples_are_the_singleton_classes {feature : Type}
    (X X' : list feature) (y y' : list nat) :
  filter_singletons X y = Some (X', y') ->
  n_removed (isin y (where_ge_2 (bincount y)))
    = n_singleton_classes (bincount y) /\
  length y = length y' + n_singleton_classes (bincount y).
Proof.
  intro H. apply filter_singletons_labels in H.
  set (keep := fun c => 2 <=? count y c) in *.
  assert (Hmask : isin y (where_ge_2 (bincount y)) = map keep y).
  { unfold isin. apply map_ext. intro c. apply isin_where_ge_2. }
  assert (Hrem : n_removed (map keep y)
                 = length (List.filter (fun c => count y c =? 1) y)).
  { unfold n_removed. rewrite filter_map_swap, length_map. f_equal.
    apply filter_ext_in. intros c Hc.
    apply (count_occ_In Nat.eq_dec) in Hc. unfold keep.
    destruct (Nat.leb_spec 2 (count y c)), (Nat.eqb_spec (count y c) 1);
      simpl; try reflexivity; lia. }
  assert (Hsing : length (List.filter (fun c => count y c =? 1) y)
                  = n_singleton_classes (bincount y)).
  { destruct y as [|a y0] eqn:Ey; [reflexivity|]. rewrite <- Ey in *.
    assert (Hne : y <> []) by (rewrite Ey; discriminate).
    rewrite (n_singleton_classes_bincount y _ Hne eq_refl).
    rewrite (length_filter_by_class _ y (S (list_max y))).
    - rewrite length_filter_indicator. f_equal. apply map_ext. intro c.
      destruct (Nat.eqb_spec (count y c) 1) as [E|_]; [exact E|reflexivity].
    - apply Forall_forall. intros c Hc. apply in_le_list_max in Hc. lia. }
  rewrite Hmask, Hrem, Hsing. split; [reflexivity|].
  rewrite <- Hsing, H, <- (List.filter_length keep y). f_equal.
  f_equal. apply filter_ext_in. intros c Hc.
  apply (count_occ_In Nat.eq_dec) in Hc. unfold keep.
  destruct (Nat.leb_spec 2 (count y c)), (Nat.eqb_spec (count y c) 1);
    simpl; try reflexivity; lia.
Qed.

Lemma removed_examples_are_the_singleton_classes_witness :
  filter_singletons ["a"; "b"; "c"; "d"; "e"]%string [3; 1; 3; 0; 5]
    = Some (["a"; "c"]%string, [3; 3]) /\
  n_removed (isin [3; 1; 3; 0; 5] (where_ge_2 (bincount [3; 1; 3; 0; 5])))
    = n_singleton_classes (bincount [3; 1; 3; 0; 5]) /\
  length [3; 1; 3; 0; 5]
    = length [3; 3] + n_singleton_classes (bincount [3; 1; 3; 0; 5]).
Proof.
  split; [reflexivity|].
  exact (removed_examples_are_the_singleton_classes
           ["a"; "b"; "c"; "d"; "e"]%string ["a"; "c"]%string
           [3; 1; 3; 0; 5] [3; 3] eq_refl).
Defined.

End FilteringMore.

Module LabelsMore.
Import Filtering Labels ValidationTargets FilteringFacts FilteringMore.

Lemma list_max_In (l : list nat) : l <> [] -> In (list_max l) l.
Proof.
  induction l as [|a l IH]; [congruence|]. intros _.
  change (list_max (a :: l)) with (Nat.max a (list_max l)).
  destruct l as [|b l].
  - left. simpl. lia.
  - destruct (Nat.max_spec a (list_max (b :: l))) as [[_ E]|[_ E]]; rewrite E.
    + right. apply IH. discriminate.
    + now left.
Qed.

Lemma np_unique_spec (y : list nat) (c : nat) :
  In c (np_unique y) <-> In c y.
Proof.
  unfold np_unique. destruct y as [|a y']; [reflexivity|].
  set (y := a :: y'). rewrite filter_In, in_seq, Nat.ltb_lt. split.
  - intros [_ H]. now apply (count_occ_In Nat.eq_dec).
  - intro H. split.
    + apply in_le_list_max in H. lia.
    + now apply (count_occ_In Nat.eq_dec).
Qed.

Lemma num_classes_le (y : list nat) : y <> [] -> num_classes y <= S (list_max y).
Proof.
  intro H. unfold num_classes, np_unique. destruct y; [congruence|].
  etransitivity; [apply List.filter_length_le|]. now rewrite length_seq.
Qed.

(** Labels that all lie below the class count leave no gap. *)
Lemma in_range_contiguous (y : list nat) :
  y <> [] ->
  Forall (fun c => c < num_classes y) y ->
  forall c, c <= list_max y -> In c y.
Proof.
  intros Hne Hall c Hc.
  pose proof (num_classes_le y Hne) as Hle.
  rewrite Forall_forall in Hall.
  pose proof (Hall _ (list_max_In y Hne)) as Hmax.
  assert (E : num_classes y = S (list_max y)) by lia.
  unfold num_classes, np_unique in E. destruct y as [|a y']; [congruence|].
  set (y := a :: y') in *.
  assert (E' : length (List.filter (fun c => 0 <? count y c)
                         (seq 0 (S (list_max y))))
               = length (seq 0 (S (list_max y))))
    by now rewrite length_seq.
  clear E. rename E' into E.
  apply filter_length_forallb in E. rewrite forallb_forall in E.
  assert (Hin : In c (seq 0 (S (list_max y)))) by (apply in_seq; lia).
  apply E, Nat.ltb_lt in Hin. now apply (count_occ_In Nat.eq_dec).
Qed.

Lemma contiguous_in_range (y : list nat) :
  (forall c, c <= list_max y -> In c y) ->
  Forall (fun c => c < num_classes y) y.
Proof.
  intro H. destruct y as [|a y'] eqn:Ey; [constructor|]. rewrite <- Ey in *.
  assert (E : num_classes y = S (list_max y)).
  { unfold num_classes, np_unique. rewrite Ey, <- Ey.
    rewrite filter_all; [apply length_seq|].
    intros c Hc. apply in_seq in Hc. apply Nat.ltb_lt.
    apply (count_occ_In Nat.eq_dec), H. lia. }
  rewrite E. apply Forall_forall. intros c Hc.
  apply in_le_list_max in Hc. lia.
Qed.

(** X8: the class count [len(np.unique(y))] is above every label exactly
    when the labels cover all of 0 .. max(y); with a gap, the largest
    label is at least the class count and cannot be one-hot encoded with
    it. *)
Theorem labels_below_class_count_iff_contiguous (y : list nat) :
  y <> [] ->
  (Forall (fun c => c < num_classes y) y <->
   forall c, c <= list_max y -> In c y) /\
  (forall c, c <= list_max y -> ~ In c y ->
     num_classes y <= list_max y /\
     one_hot (num_classes y) (list_max y) = None).
Proof.
  intro Hne. split.
  - split; [now apply in_range_contiguous | apply contiguous_in_range].
  - intros c Hc Hnot.
    assert (Hle : num_classes y <= list_max y).
    { destruct (Nat.le_gt_cases (num_classes y) (list_max y)) as [H|H];
        [exact H|]. exfalso. apply Hnot.
      apply in_range_contiguous; [exact Hne| |exact Hc].
      apply Forall_forall. intros l Hl. apply in_le_list_max in Hl. lia. }
    split; [exact Hle|]. unfold one_hot.
    destruct (Nat.ltb_spec (list_max y) (num_classes y)); [lia|reflexivity].
Qed.

Lemma labels_below_class_count_iff_contiguous_witness :
  [0; 0; 2; 2] <> [] /\
  num_classes [0; 0; 2; 2] = 2 /\
  one_hot (num_classes [0; 0; 2; 2]) (list_max [0; 0; 2; 2]) = None.
Proof.
  assert (Hne : [0; 0; 2; 2] <> []) by discriminate.
  split; [exact Hne|]. split; [reflexivity|].
  destruct (labels_below_class_count_iff_contiguous [0; 0; 2; 2] Hne)
    as [_ H].
  apply (H 1).
  - apply (le_S _ _ (le_n 1)).
  - intros [E|[E|[E|[E|[]]]]]; discriminate E.
Defined.

(** X9: the filtering step does not renumber the classes.  When it removes
    a class that lies below a class it keeps, the retained labels no
    longer fit the class count taken from them: some retained label is at
    least [num_classes] and has no one-hot row of that width. *)
Theorem filtering_leaves_label_out_of_range {feature : Type}
    (X X' : list feature) (y y' : list nat) (c c' : nat) :
  filter_singletons X y = Some (X', y') ->
  count y c = 1 ->
  c < c' ->
  2 <= count y c' ->
  exists l,
    In l y' /\ num_classes y' <= l /\ one_hot (num_classes y') l = None.
Proof.
  intros Hf Hc Hlt Hc'. apply filter_singletons_labels in Hf.
  assert (Hin' : In c' y').
  { rewrite Hf. apply filter_In. split.
    - apply (count_occ_In Nat.eq_dec). lia.
    - now apply Nat.leb_le. }
  assert (Hnot : ~ In c y').
  { rewrite Hf. intro H. apply filter_In in H. destruct H as [_ H].
    apply Nat.leb_le in H. lia. }
  assert (Hne : y' <> []) by (intro E; rewrite E in Hin'; contradiction).
  pose proof (in_le_list_max y' c' Hin') as Hmax.
  assert (Hle : num_classes y' <= list_max y').
  { destruct (Nat.le_gt_cases (num_classes y') (list_max y')) as [H|H];
      [exact H|]. exfalso. apply Hnot.
    apply in_range_contiguous; [exact Hne| |lia].
    apply Forall_forall. intros l Hl. apply in_le_list_max in Hl. lia. }
  exists (list_max y'). split; [now apply list_max_In|].
  split; [exact Hle|]. unfold one_hot.
  destruct (Nat.ltb_spec (list_max y') (num_classes y')); [lia|reflexivity].
Qed.

Lemma filtering_leaves_label_out_of_range_witness :
  filter_singletons ["a"; "b"; "c"; "d"; "e"]%string [0; 0; 1; 2; 2]
    = Some (["a"; "b"; "d"; "e"]%string, [0; 0; 2; 2]) /\
  exists l,
    In l [0; 0; 2; 2] /\ num_classes [0; 0; 2; 2] <= l /\
    one_hot (num_classes [0; 0; 2; 2]) l = None.
Proof.
  split; [reflexivity|].
  exact (filtering_leaves_label_out_of_range
           ["a"; "b"; "c"; "d"; "e"]%string ["a"; "b"; "d"; "e"]%string
           [0; 0; 1; 2; 2] [0; 0; 2; 2] 1 2 eq_refl eq_refl
           (le_n 2) (le_n 2)).
Defined.

(** ** One-hot targets and the classes that are scored *)

Lemma one_hot_rows_Some (C : nat) (y : list nat) (rows : list (list nat)) :
  one_hot_rows C y = Some rows ->
  rows = map (row C) y /\ Forall (fun c => c < C) y.
Proof.
  revert rows. induction y as [|c y IH]; intros rows H.
  - injection H as <-. split; [reflexivity|constructor].
  - cbn [one_hot_rows] in H. unfold one_hot in H at 1.
    destruct (Nat.ltb_spec c C) as [Hc|Hc]; [|discriminate].
    destruct (one_hot_rows C y) as [rs|]; [|discriminate].
    injection H as <-. destruct (IH rs eq_refl) as [-> Hall].
    split; [reflexivity | now constructor].
Qed.

Lemma one_hot_rows_None (C : nat) (y : list nat) :
  one_hot_rows C y = None -> Exists (fun c => C <= c) y.
Proof.
  induction y as [|c y IH]; [discriminate|].
  cbn [one_hot_rows]. unfold one_hot at 1.
  destruct (Nat.ltb_spec c C) as [Hc|Hc].
  - destruct (one_hot_rows C y); [discriminate|].
    intros _. apply Exists_cons_tl. now apply IH.
  - intros _. now apply Exists_cons_hd.
Qed.

Lemma all_targets_Some (C : nat) (batches : list (list nat))
    (rows : list (list nat)) :
  all_targets C batches = Some rows ->
  rows = map (row C) (concat batches) /\
  Forall (fun c => c < C) (concat batches).
Proof.
  revert rows. induction batches as [|y bs IH]; intros rows H.
  - injection H as <-. split; [reflexivity|constructor].
  - cbn [all_targets] in H.
    destruct (one_hot_rows C y) as [rs|] eqn:Hy; [|discriminate].
    destruct (all_targets C bs) as [rest|]; [|discriminate].
    injection H as <-. apply one_hot_rows_Some in Hy.
    destruct Hy as [-> Hy]. destruct (IH rest eq_refl) as [-> Hrest].
    cbn [concat]. rewrite map_app. split; [reflexivity|].
    apply Forall_app. now split.
Qed.

Lemma all_targets_None (C : nat) (batches : list (list nat)) :
  all_targets C batches = None -> Exists (fun c => C <= c) (concat batches).
Proof.
  induction batches as [|y bs IH]; [discriminate|].
  cbn [all_targets concat]. intro H. apply Exists_app.
  destruct (one_hot_rows C y) as [rs|] eqn:Hy.
  - right. apply IH. destruct (all_targets C bs); [discriminate|reflexivity].
  - left. now apply one_hot_rows_None.
Qed.

Lemma nth_map_seq_gen {A : Type} (f : nat -> A) (d : A) (n c : nat) :
  c < n -> nth c (map f (seq 0 n)) d = f c.
Proof.
  intro H. rewrite (nth_indep _ d (f 0)) by now rewrite length_map, length_seq.
  rewrite map_nth, seq_nth by exact H. reflexivity.
Qed.

Lemma sum_column_count (C j : nat) (y : list nat) :
  j < C ->
  list_sum (map (fun r => nth j r 0) (map (row C) y)) = count y j.
Proof.
  intro Hj. induction y as [|c y IH]; [reflexivity|].
  cbn [map]. 
  change (list_sum (?a :: ?l)) with (a + list_sum l).
  rewrite IH. unfold row. rewrite nth_map_seq by exact Hj.
  simpl. destruct (Nat.eq_dec c j) as [->|Hne].
  - now rewrite Nat.eqb_refl.
  - destruct (Nat.eqb_spec j c); [congruence|reflexivity].
Qed.

(** X10: in the validation pass the one-hot encoding goes through exactly
    when every collected label is below the number of output columns, and
    then the mask [pos] has one entry per class, set exactly for the
    classes that occur among the collected labels. *)
Theorem pos_marks_the_classes_present (C : nat) (batches : list (list nat)) :
  match all_targets C batches with
  | Some rows =>
      Forall (fun c => c < C) (concat batches) /\
      length (pos C rows) = C /\
      forall c, c < C ->
        (nth c (pos C rows) false = true <-> In c (concat batches))
  | None => Exists (fun c => C <= c) (concat batches)
  end.
Proof.
  destruct (all_targets C batches) as [rows|] eqn:H.
  - apply all_targets_Some in H. destruct H as [-> Hall].
    split; [exact Hall|]. unfold pos, sum_axis_0.
    split; [now rewrite !length_map, length_seq|].
    intros c Hc. rewrite map_map, nth_map_seq_gen by exact Hc.
    rewrite sum_column_count by exact Hc.
    rewrite Nat.ltb_lt. symmetry. apply (count_occ_In Nat.eq_dec).
  - now apply all_targets_None.
Qed.

End LabelsMore.

(* ================================================================== *)
(** * Facts about the running totals of a pass                         *)
(* ================================================================== *)

Module EpochStatsFacts.
Import EpochStats.

Lemma fold_totals (loader : list batch) (t : totals) :
  total (fold_left add_batch loader t)
    = total t + list_sum (batch_sizes loader) /\
  correct (fold_left add_batch loader t)
    = correct t + list_sum (batch_hits loader).
Proof.
  revert t. induction loader as [|b l IH]; intro t.
  - simpl. lia.
  - cbn [fold_left]. destruct (IH (add_batch t b)) as [-> ->].
    unfold batch_sizes, batch_hits. cbn [map add_batch total correct].
    change (list_sum (?a :: ?r)) with (a + list_sum r). lia.
Qed.

Lemma eq_sum_le (p l : list nat) : eq_sum p l <= length l.
Proof.
  unfold eq_sum. etransitivity; [apply List.filter_length_le|].
  rewrite length_combine. lia.
Qed.

Lemma eq_sum_full (p l : list nat) :
  length p = length l -> (eq_sum p l = length l <-> p = l).
Proof.
  revert l. induction p as [|a p IH]; intros [|c l] Hl; try discriminate.
  - split; reflexivity.
  - simpl in Hl. injection Hl as Hl. specialize (IH l Hl).
    unfold eq_sum in *. cbn [combine List.filter fst snd].
    pose proof (eq_sum_le p l) as Hle. unfold eq_sum in Hle.
    destruct (Nat.eqb_spec a c) as [->|Hne]; cbn [length].
    + split.
      * intro H. f_equal. apply IH. lia.
      * intro H. injection H as ->. f_equal. now apply IH.
    + split; [lia | congruence].
Qed.

Lemma list_sum_zero (l : list nat) :
  list_sum l = 0 <-> Forall (fun n => n = 0) l.
Proof.
  induction l as [|a l IH].
  - split; [constructor | reflexivity].
  - change (list_sum (a :: l)) with (a + list_sum l). split.
    + intro H. constructor; [lia | apply IH; lia].
    + intro H. inversion H; subst. apply IH in H3. lia.
Qed.

Lemma hits_all_iff (loader : list batch) :
  Forall (fun b => length (predicted b) = length (y b)) loader ->
  (list_sum (batch_hits loader) = list_sum (batch_sizes loader) <->
   Forall (fun b => predicted b = y b) loader).
Proof.
  induction 1 as [|b l Hb _ IH].
  - split; [constructor | reflexivity].
  - unfold batch_hits, batch_sizes in *. cbn [map].
    change (list_sum (?a :: ?r)) with (a + list_sum r).
    pose proof (eq_sum_le (predicted b) (y b)) as H1.
    assert (H2 : list_sum (map (fun b => eq_sum (predicted b) (y b)) l)
                 <= list_sum (map (fun b => length (y b)) l)).
    { clear. induction l as [|c l IHl]; [apply Nat.le_refl|].
      cbn [map]. change (list_sum (?a :: ?r)) with (a + list_sum r).
      pose proof (eq_sum_le (predicted c) (y c)). lia. }
    split.
    + intro H. constructor.
      * apply (eq_sum_full _ _ Hb). lia.
      * apply IH. lia.
    + intro H. inversion H as [|? ? Hp Hl]; subst.
      apply IH in Hl. apply (eq_sum_full _ _ Hb) in Hp. lia.
Qed.

(** X11: the division at the end of a pass raises [ZeroDivisionError]
    exactly when the pass saw no labelled example -- every batch empty, in
    particular a loader without batches. *)
Theorem epoch_metrics_zero_division (loader : list batch) :
  epoch_metrics loader = None <-> Forall (fun b => y b = []) loader.
Proof.
  unfold epoch_metrics, accumulate.
  destruct (fold_totals loader
              {| running_loss := 0%Q; correct := 0; total := 0 |}) as [Ht _].
  cbn [total] in Ht. rewrite Ht. cbn [Nat.add].
  destruct (Nat.eqb_spec (list_sum (batch_sizes loader)) 0) as [E|E].
  - split; [intros _|reflexivity].
    apply list_sum_zero in E. unfold batch_sizes in E.
    rewrite Forall_map in E. eapply Forall_impl; [|exact E].
    cbv beta. intros b Hb. now apply length_zero_iff_nil.
  - split; [discriminate|]. intro H. exfalso. apply E.
    apply list_sum_zero. unfold batch_sizes. rewrite Forall_map.
    eapply Forall_impl; [|exact H]. cbv beta. now intros b ->.
Qed.

Lemma inject_nat_pos (n : nat) : n <> 0 -> (0 < inject_Z (Z.of_nat n))%Q.
Proof.
  intro H. change 0%Q with (inject_Z 0). rewrite <- Zlt_Qlt. lia.
Qed.

(** X12: the accuracy of a pass is a fraction between 0 and 1; when every
    batch has one prediction per label, it is 1 exactly when every
    prediction equals its label. *)
Theorem epoch_accuracy_is_a_fraction (loader : list batch) (loss acc : Q) :
  epoch_metrics loader = Some (loss, acc) ->
  (0 <= acc)%Q /\ (acc <= 1)%Q /\
  (Forall (fun b => length (predicted b) = length (y b)) loader ->
   ((acc == 1)%Q <-> Forall (fun b => predicted b = y b) loader)).
Proof.
  unfold epoch_metrics, accumulate.
  destruct (fold_totals loader
              {| running_loss := 0%Q; correct := 0; total := 0 |}) as [Ht Hc].
  cbn [total correct Nat.add] in Ht, Hc.
  set (t := fold_left add_batch loader _) in *.
  destruct (Nat.eqb_spec (total t) 0) as [E|E]; [discriminate|].
  intro H. injection H as _ <-.
  pose proof (inject_nat_pos _ E) as Hpos.
  assert (Hle : correct t <= total t).
  { rewrite Ht, Hc. clear. unfold batch_hits, batch_sizes.
    induction loader as [|c l IHl]; [apply Nat.le_refl|].
    cbn [map]. change (list_sum (?a :: ?r)) with (a + list_sum r).
    pose proof (eq_sum_le (predicted c) (y c)). lia. }
  split; [|split].
  - apply Qle_shift_div_l; [exact Hpos|]. rewrite Qmult_0_l.
    change 0%Q with (inject_Z 0). rewrite <- Zle_Qle. lia.
  - apply Qle_shift_div_r; [exact Hpos|]. rewrite Qmult_1_l.
    rewrite <- Zle_Qle. lia.
  - intro Hlen. rewrite <- (hits_all_iff loader Hlen), <- Ht, <- Hc.
    assert (Hnz : ~ (inject_Z (Z.of_nat (total t)) == 0)%Q).
    { intro H0. rewrite H0 in Hpos. exact (Qlt_irrefl _ Hpos). }
    split.
    + intro H1.
      assert (H2 : (inject_Z (Z.of_nat (correct t))
                    == inject_Z (Z.of_nat (total t)))%Q).
      { rewrite <- (Qmult_div_r (inject_Z (Z.of_nat (correct t))) _ Hnz).
        rewrite H1. apply Qmult_1_r. }
      unfold Qeq, inject_Z in H2. cbn [Qnum Qden] in H2. lia.
    + intros ->. unfold Qdiv. now apply Qmult_inv_r.
Qed.

Lemma inject_nat_add (a b : nat) :
  (inject_Z (Z.of_nat (a + b))
   == inject_Z (Z.of_nat a) + inject_Z (Z.of_nat b))%Q.
Proof. now rewrite Nat2Z.inj_add, inject_Z_plus. Qed.

(** While the batch losses stay within [lo, hi], so does the running loss
    per counted label. *)
Lemma fold_loss_between (lo hi : Q) (loader : list batch) (t : totals) :
  Forall (fun b => length (predicted b) = length (y b)) loader ->
  Forall (fun b => lo <= loss_item b /\ loss_item b <= hi)%Q loader ->
  (lo * inject_Z (Z.of_nat (total t)) <= running_loss t)%Q ->
  (running_loss t <= hi * inject_Z (Z.of_nat (total t)))%Q ->
  let t' := fold_left add_batch loader t in
  (lo * inject_Z (Z.of_nat (total t')) <= running_loss t')%Q /\
  (running_loss t' <= hi * inject_Z (Z.of_nat (total t')))%Q.
Proof.
  intros Hlen. revert t. induction Hlen as [|b l Hb _ IH]; intros t Hbd Hlo Hhi.
  - now split.
  - inversion Hbd as [|? ? [Hl Hh] Hbd']; subst. cbn [fold_left].
    apply IH; [exact Hbd'| |]; cbn [add_batch total running_loss];
      rewrite Hb, inject_nat_add;
      set (n := inject_Z (Z.of_nat (length (y b))));
      set (T := inject_Z (Z.of_nat (total t))) in *;
      assert (Hn : (0 <= n)%Q)
        by (unfold n; change 0%Q with (inject_Z 0); rewrite <- Zle_Qle; lia).
    + pose proof (Qmult_le_compat_r _ _ n Hl Hn). Lqa.lra.
    + pose proof (Qmult_le_compat_r _ _ n Hh Hn). Lqa.lra.
Qed.

(** X13: with one output row per label in every batch, the loss of a pass
    lies between any two bounds that hold for all batch losses. *)
Theorem epoch_loss_between_batch_losses
    (lo hi : Q) (loader : list batch) (loss acc : Q) :
  epoch_metrics loader = Some (loss, acc) ->
  Forall (fun b => length (predicted b) = length (y b)) loader ->
  Forall (fun b => lo <= loss_item b /\ loss_item b <= hi)%Q loader ->
  (lo <= loss)%Q /\ (loss <= hi)%Q.
Proof.
  unfold epoch_metrics, accumulate. intros H Hlen Hbd.
  destruct (fold_loss_between lo hi loader
              {| running_loss := 0%Q; correct := 0; total := 0 |} Hlen Hbd)
    as [Hlo Hhi].
  { cbn [total running_loss]. change (inject_Z (Z.of_nat 0)) with 0%Q.
    Lqa.lra. }
  { cbn [total running_loss]. change (inject_Z (Z.of_nat 0)) with 0%Q.
    Lqa.lra. }
  cbv zeta in Hlo, Hhi.
  set (t := fold_left add_batch loader _) in *.
  destruct (Nat.eqb_spec (total t) 0) as [E|E]; [discriminate|].
  injection H as <- _.
  pose proof (inject_nat_pos _ E) as Hpos.
  split.
  - apply Qle_shift_div_l; assumption.
  - apply Qle_shift_div_r; assumption.
Qed.

Lemma epoch_loss_between_batch_losses_witness :
  let loader :=
    [ {| loss_item := 1 # 2; predicted := [0; 1]; y := [0; 2] |};
      {| loss_item := 1 # 4; predicted := [3]; y := [3] |} ] in
  exists loss acc,
    epoch_metrics loader = Some (loss, acc) /\
    (1 # 4 <= loss)%Q /\ (loss <= 1 # 2)%Q.
Proof.
  intro loader.
  destruct (epoch_metrics loader) as [[loss acc]|] eqn:H.
  - exists loss, acc. split; [reflexivity|].
    apply (epoch_loss_between_batch_losses (1 # 4) (1 # 2) loader loss acc H).
    + repeat constructor.
    + repeat constructor; discriminate.
  - vm_compute in H. discriminate H.
Defined.

Lemma epoch_accuracy_is_a_fraction_witness :
  let loader :=
    [ {| loss_item := 1 # 2; predicted := [0; 1]; y := [0; 2] |};
      {| loss_item := 1 # 4; predicted := [3]; y := [3] |} ] in
  exists loss acc,
    epoch_metrics loader = Some (loss, acc) /\
    (0 <= acc)%Q /\ (acc <= 1)%Q.
Proof.
  intro loader.
  destruct (epoch_metrics loader) as [[loss acc]|] eqn:H.
  - exists loss, acc. split; [reflexivity|].
    destruct (epoch_accuracy_is_a_fraction loader loss acc H) as (H0 & H1 & _).
    split; [exact H0 | exact H1].
  - vm_compute in H. discriminate H.
Defined.

End EpochStatsFacts.

(* ================================================================== *)
(** * More about the model's shapes                                    *)
(* ================================================================== *)

Module CRNNMore.
Import CRNN CRNNFacts.

Ltac bind_step :=
  repeat match goal with
         | |- context [Some ?x ≫= ?f] => change (Some x ≫= f) with (f x)
         | |- context [@None shape ≫= ?f] =>
             change (@None shape ≫= f) with (@None shape)
         end.

Lemma Sequential_None (layers : list (shape -> option shape)) :
  fold_left (fun acc layer => acc ≫= layer) layers None = None.
Proof. induction layers as [|l ls IH]; [reflexivity | exact IH]. Qed.

Lemma Sequential_app (l1 l2 : list (shape -> option shape)) (x : shape) :
  Sequential (l1 ++ l2) x = Sequential l1 x ≫= Sequential l2.
Proof.
  unfold Sequential. rewrite fold_left_app.
  destruct (fold_left _ l1 (Some x)); [reflexivity | apply Sequential_None].
Qed.

Lemma conv_3_1_shape (cin cout b h w : nat) :
  Conv2d cin cout 3 1 [b; cin; h; w] =
  if (1 <=? h) && (1 <=? w) then Some [b; cout; h; w] else None.
Proof.
  unfold Conv2d. rewrite Nat.eqb_refl. cbn [andb].
  destruct (Nat.leb_spec 1 h), (Nat.leb_spec 1 w),
           (Nat.leb_spec 3 (h + 2 * 1)), (Nat.leb_spec 3 (w + 2 * 1));
    cbn [andb]; try lia; try reflexivity.
  repeat f_equal; lia.
Qed.

Lemma pool_2_2_shape (b c h w : nat) :
  MaxPool2d 2 2 [b; c; h; w] =
  if (2 <=? h) && (2 <=? w) then Some [b; c; h / 2; w / 2] else None.
Proof.
  unfold MaxPool2d.
  destruct (Nat.leb_spec 2 h), (Nat.leb_spec 2 w); cbn [andb];
    try reflexivity.
  assert (E : forall n, 2 <= n -> (n - 2) / 2 + 1 = n / 2).
  { intros n Hn. replace n with ((n - 2) + 1 * 2) at 2 by lia.
    now rewrite Nat.div_add by discriminate. }
  now rewrite !E.
Qed.

(** One convolution block: same-size convolution, then halving. *)
Lemma block_shape (training : bool) (cin cout b h w : nat) :
  Sequential [Conv2d cin cout 3 1; BatchNorm2d training cout; ReLU;
              MaxPool2d 2 2; Dropout] [b; cin; h; w] =
  if (2 <=? h) && (2 <=? w) then Some [b; cout; h / 2; w / 2] else None.
Proof.
  unfold Sequential. cbn [fold_left]. bind_step.
  rewrite conv_3_1_shape.
  destruct (Nat.leb_spec 2 h) as [Hh|Hh], (Nat.leb_spec 2 w) as [Hw|Hw];
    cbn [andb].
  - rewrite (proj2 (Nat.leb_le 1 h)), (proj2 (Nat.leb_le 1 w)) by lia.
    cbn [andb]. bind_step. rewrite BatchNorm2d_shape by lia. bind_step.
    unfold ReLU. bind_step. rewrite pool_2_2_shape.
    rewrite (proj2 (Nat.leb_le 2 h) Hh), (proj2 (Nat.leb_le 2 w) Hw).
    cbn [andb]. bind_step. reflexivity.
  - destruct ((1 <=? h) && (1 <=? w)); bind_step; [|reflexivity].
    destruct (BatchNorm2d training cout [b; cout; h; w]) as [y|] eqn:E;
      bind_step; [|reflexivity].
    unfold BatchNorm2d in E. destruct (_ && _) in E; [|discriminate].
    injection E as <-. unfold ReLU. bind_step. rewrite pool_2_2_shape.
    destruct (Nat.leb_spec 2 w); [lia|]. rewrite andb_false_r. reflexivity.
  - destruct ((1 <=? h) && (1 <=? w)); bind_step; [|reflexivity].
    destruct (BatchNorm2d training cout [b; cout; h; w]) as [y|] eqn:E;
      bind_step; [|reflexivity].
    unfold BatchNorm2d in E. destruct (_ && _) in E; [|discriminate].
    injection E as <-. unfold ReLU. bind_step. rewrite pool_2_2_shape.
    destruct (Nat.leb_spec 2 h); [lia|]. reflexivity.
  - destruct ((1 <=? h) && (1 <=? w)); bind_step; [|reflexivity].
    destruct (BatchNorm2d training cout [b; cout; h; w]) as [y|] eqn:E;
      bind_step; [|reflexivity].
    unfold BatchNorm2d in E. destruct (_ && _) in E; [|discriminate].
    injection E as <-. unfold ReLU. bind_step. rewrite pool_2_2_shape.
    destruct (Nat.leb_spec 2 h); [lia|]. reflexivity.
Qed.

Lemma div_ge_iff (n k q : nat) : k <> 0 -> (q <= n / k <-> k * q <= n).
Proof.
  intro Hk. split.
  - intro H. destruct (Nat.le_gt_cases (k * q) n) as [L|L]; [exact L|].
    apply Nat.Div0.div_lt_upper_bound in L. lia.
  - intro H. now apply Nat.div_le_lower_bound.
Qed.

Lemma leb_2_div (n k : nat) : k <> 0 -> (2 <=? n / k) = (k * 2 <=? n).
Proof.
  intro Hk. pose proof (div_ge_iff n k 2 Hk) as H.
  destruct (Nat.leb_spec 2 (n / k)), (Nat.leb_spec (k * 2) n);
    try reflexivity; lia.
Qed.

Lemma features_cases (training : bool) (B H W : nat) :
  features training [B; 1; H; W] =
  if (8 <=? H) && (8 <=? W) then Some [B; 256; H / 8; W / 8] else None.
Proof.
  change (features training) with
    (Sequential
       ([Conv2d 1 64 3 1; BatchNorm2d training 64; ReLU; MaxPool2d 2 2;
         Dropout] ++
        [Conv2d 64 128 3 1; BatchNorm2d training 128; ReLU; MaxPool2d 2 2;
         Dropout] ++
        [Conv2d 128 256 3 1; BatchNorm2d training 256; ReLU; MaxPool2d 2 2;
         Dropout])).
  rewrite Sequential_app, block_shape.
  assert (D4 : forall n, n / 2 / 2 / 2 = n / 8).
  { intro n. now rewrite !Nat.Div0.div_div. }
  assert (L2 : forall n, (2 <=? n / 2) = (4 <=? n)).
  { intro n. now rewrite leb_2_div by discriminate. }
  assert (L4 : forall n, (2 <=? n / 2 / 2) = (8 <=? n)).
  { intro n. rewrite Nat.Div0.div_div. now rewrite leb_2_div by discriminate. }
  destruct (Nat.leb_spec 2 H) as [H2|H2], (Nat.leb_spec 2 W) as [W2|W2];
    cbn [andb]; bind_step.
  - rewrite Sequential_app, block_shape, !L2.
    destruct (Nat.leb_spec 4 H) as [H4|H4], (Nat.leb_spec 4 W) as [W4|W4];
      cbn [andb]; bind_step.
    + now rewrite block_shape, !L4, !D4.
    + destruct (Nat.leb_spec 8 W); [lia|]. now rewrite andb_false_r.
    + destruct (Nat.leb_spec 8 H); [lia|]. reflexivity.
    + destruct (Nat.leb_spec 8 H); [lia|]. reflexivity.
  - destruct (Nat.leb_spec 8 W); [lia|]. now rewrite andb_false_r.
  - destruct (Nat.leb_spec 8 H); [lia|]. reflexivity.
  - destruct (Nat.leb_spec 8 H); [lia|]. reflexivity.
Qed.

(** X16: in either mode, the convolutional encoder takes any
    single-channel input that is at least 8 high and 8 wide, and divides
    height and width by 8 (rounding down); a smaller single-channel input
    is rejected. *)
Theorem features_divide_by_8 (training : bool) (B H W : nat) :
  features training [B; 1; H; W] =
  if (8 <=? H) && (8 <=? W) then Some [B; 256; H / 8; W / 8] else None.
Proof. apply features_cases. Qed.

Ltac bind_any :=
  repeat match goal with
         | |- context [@mbind option _ ?A ?B ?f (Some ?x)] =>
             change (@mbind option _ A B f (Some x)) with (f x);
             cbv beta match
         | |- context [@mbind option _ ?A ?B ?f None] =>
             change (@mbind option _ A B f None) with (@None B)
         | |- context [@fmap option _ ?A ?B ?f (Some ?x)] =>
             change (@fmap option _ A B f (Some x)) with (Some (f x))
         end.

Lemma reshape_sequence (B t c h : nat) :
  0 < B -> 0 < t -> 0 < c -> 0 < h ->
  reshape_infer_last B t [B; t; c; h] = Some [B; t; c * h].
Proof.
  intros HB Ht Hc Hh. unfold reshape_infer_last.
  assert (E : fold_right Nat.mul 1 [B; t; c; h] = (c * h) * (B * t)).
  { cbn [fold_right]. rewrite Nat.mul_1_r.
    rewrite (Nat.mul_comm (c * h) (B * t)). now rewrite !Nat.mul_assoc. }
  rewrite E.
  assert (Hbt : B * t <> 0) by (apply Nat.neq_mul_0; lia).
  assert (Hch : c * h <> 0) by (apply Nat.neq_mul_0; lia).
  rewrite Nat.Div0.mod_mul, Nat.div_mul by exact Hbt.
  destruct (Nat.eqb_spec (c * h * (B * t)) 0) as [E0|_]; [|reflexivity].
  exfalso. apply Nat.eq_mul_0 in E0. tauto.
Qed.

(** X17: with a positive hidden size, the forward pass takes a non-empty
    single-channel batch of any width of at least 8 frames, but only of a
    height between 128 and 135: the recurrent layer is built for 16 rows
    of 256 channels, and any other height makes it reject its input.  In
    training mode a batch of one example is rejected as well, by the
    classifier's batch normalisation. *)
Theorem forward_accepts_any_width
    (num_classes hid : nat) (training : bool) (B H W : nat) :
  0 < B -> 0 < hid -> 8 <= H -> 8 <= W ->
  forward num_classes hid training [B; 1; H; W] =
  if (H / 8 =? 16) && negb (training && (B =? 1))
  then Some [B; num_classes] else None.
Proof.
  intros HB Hhid HH HW. unfold forward.
  change (head [B; 1; H; W]) with (Some B). bind_any.
  rewrite features_cases.
  rewrite (proj2 (Nat.leb_le 8 H) HH), (proj2 (Nat.leb_le 8 W) HW).
  cbn [andb]. bind_any. unfold permute_0_3_1_2. bind_any. cbn [nth].
  assert (H8 : 0 < H / 8).
  { apply (div_ge_iff H 8 1); [discriminate | lia]. }
  assert (W8 : 0 < W / 8).
  { apply (div_ge_iff W 8 1); [discriminate | lia]. }
  rewrite (reshape_sequence B (W / 8) 256 (H / 8) HB W8 (Nat.lt_0_succ 255) H8).
  bind_any. unfold gru, GRU.
  assert (E : (256 * (H / 8) =? 16 * 256) = (H / 8 =? 16)).
  { rewrite (Nat.mul_comm 16 256).
    destruct (Nat.eqb_spec (256 * (H / 8)) (256 * 16)) as [A|A],
             (Nat.eqb_spec (H / 8) 16) as [C|C]; try reflexivity; exfalso.
    - apply Nat.mul_cancel_l in A; [contradiction | discriminate].
    - apply A. now rewrite C. }
  rewrite (proj2 (Nat.ltb_lt 0 hid) Hhid), E. cbn [andb].
  destruct (H / 8 =? 16); cbn [andb]; bind_any; [|reflexivity].
  rewrite attention_shape. bind_any.
  change (squeeze_last [B; W / 8; 1]) with [B; W / 8].
  unfold softmax_dim_1. cbv beta match. bind_any.
  unfold unsqueeze_1. cbv beta match. bind_any.
  unfold bmm. cbv beta match. rewrite !Nat.eqb_refl. cbn [andb]. bind_any.
  unfold squeeze_1. cbv beta match. cbn [Nat.eqb]. bind_any.
  rewrite classifier_shape. destruct (training && (B =? 1)); reflexivity.
Qed.

Lemma forward_accepts_any_width_witness :
  0 < 2 /\ 0 < 256 /\ 8 <= 130 /\ 8 <= 64 /\
  forward 10 256 true [2; 1; 130; 64] = Some [2; 10] /\
  forward 10 256 true [2; 1; 136; 64] = None /\
  forward 10 256 true [1; 1; 130; 64] = None /\
  forward 10 256 false [1; 1; 130; 64] = Some [1; 10].
Proof.
  assert (H0 : 0 < 1) by exact (Nat.lt_0_succ 0).
  assert (H1 : 0 < 2) by exact (Nat.lt_0_succ 1).
  assert (Hh : 0 < 256) by exact (Nat.lt_0_succ 255).
  assert (H2 : 8 <= 130) by (apply Nat.leb_le; reflexivity).
  assert (H3 : 8 <= 64) by (apply Nat.leb_le; reflexivity).
  assert (H4 : 8 <= 136) by (apply Nat.leb_le; reflexivity).
  split; [exact H1|]. split; [exact Hh|]. split; [exact H2|].
  split; [exact H3|]. split; [|split; [|split]].
  - exact (forward_accepts_any_width 10 256 true 2 130 64 H1 Hh H2 H3).
  - exact (forward_accepts_any_width 10 256 true 2 136 64 H1 Hh H4 H3).
  - exact (forward_accepts_any_width 10 256 true 1 130 64 H0 Hh H2 H3).
  - exact (forward_accepts_any_width 10 256 false 1 130 64 H0 Hh H2 H3).
Defined.

(** X18: a batch whose channel axis is not 1 is rejected by the first
    convolution, whatever its other extents. *)
Theorem forward_rejects_other_channel_counts
    (num_classes hid : nat) (training : bool) (B C H W : nat) :
  C <> 1 -> forward num_classes hid training [B; C; H; W] = None.
Proof.
  intro HC. unfold forward.
  change (head [B; C; H; W]) with (Some B). bind_any.
  assert (E : features training [B; C; H; W] = None).
  { change (features training) with
      (Sequential
         ([Conv2d 1 64 3 1] ++
          [BatchNorm2d training 64; ReLU; MaxPool2d 2 2; Dropout;
           Conv2d 64 128 3 1; BatchNorm2d training 128; ReLU; MaxPool2d 2 2;
           Dropout;
           Conv2d 128 256 3 1; BatchNorm2d training 256; ReLU; MaxPool2d 2 2;
           Dropout])).
    rewrite Sequential_app.
    assert (E1 : Sequential [Conv2d 1 64 3 1] [B; C; H; W] = None).
    { unfold Sequential. cbn [fold_left]. bind_step. unfold Conv2d.
      destruct (Nat.eqb_spec C 1) as [|_]; [contradiction|]. reflexivity. }
    rewrite E1. reflexivity. }
  rewrite E. reflexivity.
Qed.

Lemma forward_rejects_other_channel_counts_witness :
  3 <> 1 /\ forward 10 256 true [2; 3; 128; 256] = None.
Proof.
  assert (H : 3 <> 1) by discriminate.
  split; [exact H|].
  exact (forward_rejects_other_channel_counts 10 256 true 2 3 128 256 H).
Defined.

End CRNNMore.

Module AttentionMore.
Import CRNN CRNNFacts.

Local Open Scope R_scope.

Lemma weighted_between (j : nat) (lo hi : R) (w : list R) (m : list (list R)) :
  length w = length m ->
  Forall (fun a => 0 <= a) w ->
  Forall (fun h => lo <= nth j h 0 <= hi) m ->
  lo * Rsum w
    <= Rsum (map (fun wr => fst wr * nth j (snd wr) 0) (combine w m))
    <= hi * Rsum w.
Proof.
  revert m. induction w as [|a w IH]; intros [|h m] Hl Hw Hm;
    try discriminate.
  - simpl. Lra.lra.
  - inversion Hw as [|? ? Ha Hw']; subst.
    inversion Hm as [|? ? Hh Hm']; subst.
    simpl in Hl. injection Hl as Hl.
    specialize (IH m Hl Hw' Hm').
    cbn [combine map Rsum fold_right fst snd] in *.
    fold (Rsum w). 
    fold (Rsum (map (fun wr => fst wr * nth j (snd wr) 0) (combine w m))).
    pose proof (Rmult_le_compat_l a _ _ Ha (proj1 Hh)).
    pose proof (Rmult_le_compat_l a _ _ Ha (proj2 Hh)).
    Lra.lra.
Qed.

(** X19: attention pooling is an average: every component of the pooled
    context vector lies between the smallest and the largest value that
    component takes over the time steps. *)
Theorem context_within_hidden_range
    (D j : nat) (lo hi : R) (scorer : list R -> R) (gru_out : list (list R)) :
  gru_out <> [] ->
  (j < D)%nat ->
  Forall (fun h => lo <= nth j h 0 <= hi) gru_out ->
  lo <= nth j (context D scorer gru_out) 0 <= hi.
Proof.
  intros Hne Hj Hb. unfold context, bmm_row.
  rewrite LabelsMore.nth_map_seq_gen by exact Hj.
  assert (Hs : map scorer gru_out <> [])
    by (destruct gru_out; [congruence | discriminate]).
  pose proof (softmax_sum_1 _ Hs) as Hsum.
  pose proof (softmax_pos _ Hs) as Hpos.
  pose proof (weighted_between j lo hi (attn_weights scorer gru_out) gru_out)
    as Hw.
  unfold attn_weights in *. rewrite Hsum, !Rmult_1_r in Hw. apply Hw.
  - unfold softmax. now rewrite !length_map.
  - eapply Forall_impl; [|exact Hpos]. cbv beta. intros a Ha. Lra.lra.
  - exact Hb.
Qed.

Lemma context_within_hidden_range_witness :
  let gru_out := [[1; 5]; [3; 4]] in
  gru_out <> [] /\ (0 < 2)%nat /\
  Forall (fun h => 1 <= nth 0 h 0 <= 3) gru_out /\
  1 <= nth 0 (context 2 (fun _ => 0) gru_out) 0 <= 3.
Proof.
  intro gru_out.
  assert (Hne : gru_out <> []) by discriminate.
  assert (Hb : Forall (fun h => 1 <= nth 0 h 0 <= 3) gru_out).
  { repeat constructor; simpl; Lra.lra. }
  split; [exact Hne|]. split; [exact (Nat.lt_0_succ 1)|]. split; [exact Hb|].
  exact (context_within_hidden_range 2 0 1 3 (fun _ => 0) gru_out Hne
           (Nat.lt_0_succ 1) Hb).
Defined.

End AttentionMore.

(* ================================================================== *)
(** * More about the competition metric                                *)
(* ================================================================== *)

Module ScoringMore.
Import Scoring ScoringSamples ScoringFacts.

Lemma existsb_perm {A : Type} (f : A -> bool) (l l' : list A) :
  Permutation l l' -> existsb f l = existsb f l'.
Proof.
  intro P. apply eq_true_iff_eq. rewrite !existsb_exists.
  split; intros (x & Hin & Hx); exists x; split; try exact Hx.
  - now apply (Permutation_in _ P).
  - now apply (Permutation_in _ (Permutation_sym P)).
Qed.

Lemma drop_column_perm (id : string) (t t' : DataFrame) :
  Permutation t t' -> Permutation (drop_column id t) (drop_column id t').
Proof.
  unfold drop_column. induction 1 as [|x l l' _ IH|x z l|l l' l'' _ IH1 _ IH2];
    cbn [List.filter].
  - constructor.
  - destruct (negb (fst x =? id)%string); [now constructor | exact IH].
  - destruct (negb (fst x =? id)%string), (negb (fst z =? id)%string);
      try apply Permutation_refl. apply perm_swap.
  - exact (perm_trans IH1 IH2).
Qed.

Lemma drop_column_labels (id n : string) (t : DataFrame) :
  In n (map fst (drop_column id t)) -> In n (map fst t).
Proof.
  intro H. apply in_map_iff in H. destruct H as (p & <- & Hp).
  apply filter_In in Hp. apply in_map. tauto.
Qed.

Lemma drop_column_NoDup (id : string) (t : DataFrame) :
  NoDup (map fst t) -> NoDup (map fst (drop_column id t)).
Proof.
  induction t as [|[n c] t IH]; intro H; [constructor|].
  inversion H as [|? ? Hn Ht]; subst. cbn [drop_column List.filter fst].
  destruct (negb (n =? id)%string); [|now apply IH].
  cbn [map fst]. constructor; [|now apply IH].
  intro Hin. apply Hn. now apply drop_column_labels in Hin.
Qed.

Lemma get_column_In (n : string) (c : column) (t : DataFrame) :
  NoDup (map fst t) -> (get_column n t = Some c <-> In (n, c) t).
Proof.
  induction t as [|[m d] t IH]; intro H.
  - split; [discriminate | intros []].
  - inversion H as [|? ? Hm Ht]; subst. cbn [get_column].
    destruct (String.eqb_spec m n) as [->|Hne].
    + split.
      * intro E. injection E as ->. now left.
      * intros [E|Hin]; [now injection E as -> |].
        exfalso. apply Hm. apply (in_map fst) in Hin. exact Hin.
    + rewrite (IH Ht). split; [now right|].
      intros [E|Hin]; [injection E as -> _; contradiction | exact Hin].
Qed.

Lemma get_column_perm (n : string) (t t' : DataFrame) :
  Permutation t t' -> NoDup (map fst t) ->
  get_column n t' = get_column n t.
Proof.
  intros P Hnd.
  assert (Hnd' : NoDup (map fst t')).
  { eapply Permutation_NoDup; [|exact Hnd]. now apply Permutation_map. }
  destruct (get_column n t) as [c|] eqn:E.
  - apply (get_column_In n c t' Hnd').
    apply (Permutation_in _ P). now apply (get_column_In n c t Hnd).
  - destruct (get_column n t') as [c|] eqn:E'; [|reflexivity].
    apply (get_column_In n c t' Hnd') in E'.
    apply (Permutation_in _ (Permutation_sym P)) in E'.
    apply (get_column_In n c t Hnd) in E'. congruence.
Qed.

Lemma select_perm (names : list string) (t t' : DataFrame) :
  Permutation t t' -> NoDup (map fst t) -> select t' names = select t names.
Proof.
  intros P Hnd. induction names as [|n names IH]; [reflexivity|].
  cbn [select]. now rewrite (get_column_perm n t t' P Hnd), IH.
Qed.

Lemma find_common_type_perm (l l' : list dtype) :
  Permutation l l' -> find_common_type l = find_common_type l'.
Proof.
  intro P. unfold find_common_type.
  destruct l as [|a l0] eqn:El, l' as [|a' l0'] eqn:El'.
  - reflexivity.
  - apply Permutation_nil in P. discriminate.
  - apply Permutation_sym, Permutation_nil in P. discriminate.
  - rewrite <- El, <- El' in *.
    assert (Ha : In a l) by (rewrite El; now left).
    assert (Ha' : In a' l') by (rewrite El'; now left).
    rewrite (existsb_perm (dtype_eqb object_) l l' P).
    rewrite (existsb_perm (dtype_eqb bool_) l l' P).
    destruct (forallb (dtype_eqb a) l) eqn:F, (forallb (dtype_eqb a') l') eqn:F'.
    + rewrite forallb_forall in F.
      apply dtype_eqb_eq, F. now apply (Permutation_in _ (Permutation_sym P)).
    + exfalso. rewrite forallb_forall in F.
      assert (F2 : forallb (dtype_eqb a') l' = true).
      { apply forallb_forall. intros x Hx. apply dtype_eqb_eq.
        apply (Permutation_in _ (Permutation_sym P)) in Hx, Ha'.
        apply F, dtype_eqb_eq in Hx. apply F, dtype_eqb_eq in Ha'.
        congruence. }
      congruence.
    + exfalso. rewrite forallb_forall in F'.
      assert (F2 : forallb (dtype_eqb a) l = true).
      { apply forallb_forall. intros x Hx. apply dtype_eqb_eq.
        apply (Permutation_in _ P) in Hx, Ha.
        apply F', dtype_eqb_eq in Hx. apply F', dtype_eqb_eq in Ha.
        congruence. }
      congruence.
    + reflexivity.
Qed.

Lemma has_column_get_None (n : string) (t : DataFrame) :
  has_column n t = false -> get_column n t = None.
Proof.
  induction t as [|[m c] t IH]; [reflexivity|].
  cbn [has_column existsb get_column fst].
  destruct (m =? n)%string; [discriminate|]. exact IH.
Qed.

Lemma select_missing (t : DataFrame) (names : list string) (n : string) :
  In n names -> get_column n t = None -> select t names = None.
Proof.
  intros Hin Hn. induction names as [|m names IH]; [contradiction|].
  cbn [select]. destruct Hin as [->|Hin].
  - now rewrite Hn.
  - rewrite (IH Hin). now destruct (get_column m t).
Qed.

Section More.

Variable metric_exn : Type.
Variable metric : list column -> list column -> Q + metric_exn.

Lemma score_body_perm (sol sub sub' : DataFrame) :
  Permutation sub sub' -> NoDup (map fst sub) ->
  score_body metric sol sub' = score_body metric sol sub.
Proof.
  intros P Hnd. unfold score_body, values_dtype.
  rewrite <- (find_common_type_perm _ _
                (Permutation_map (fun p => col_dtype (snd p)) P)).
  destruct (negb (is_numeric_dtype _)); [reflexivity|].
  destruct (scored_columns sol) as [scored|]; [|reflexivity].
  now rewrite (select_perm scored sub sub' P Hnd).
Qed.

(** X20: a second call on the same tables finds the identifier column
    gone: it raises [KeyError] and changes nothing further. *)
Theorem score_second_call_key_error (solution submission : nat)
    (id : string) (h : gmap nat DataFrame) (tsol tsub : DataFrame) :
  solution <> submission ->
  h !! solution = Some tsol ->
  h !! submission = Some tsub ->
  has_column id tsol = true ->
  has_column id tsub = true ->
  let h' := fst (score metric solution submission id h) in
  score metric solution submission id h' = (h', Raise KeyError).
Proof.
  intros Hne Hsol Hsub Hcs Hcb h'. unfold h'.
  rewrite (score_after_deletions _ metric _ _ _ _ _ _ Hne Hsol Hsub Hcs Hcb).
  cbn [fst].
  apply score_key_error_solution with (tsol := drop_column id tsol).
  - rewrite lookup_insert_ne by (intro E; apply Hne; now symmetry).
    apply lookup_insert_eq.
  - apply has_column_drop.
Qed.

(** X21: when only the submission lacks the identifier column, the call
    raises [KeyError] after it has already removed that column from the
    caller's solution table. *)
Theorem score_key_error_after_first_deletion (solution submission : nat)
    (id : string) (h : gmap nat DataFrame) (tsol tsub : DataFrame) :
  h !! solution = Some tsol ->
  h !! submission = Some tsub ->
  has_column id tsol = true ->
  has_column id tsub = false ->
  score metric solution submission id h =
    (<[solution := drop_column id tsol]> h, Raise KeyError) /\
  fst (score metric solution submission id h) !! solution
    = Some (drop_column id tsol).
Proof.
  intros Hsol Hsub Hcs Hcb.
  assert (Hne : solution <> submission).
  { intros ->. rewrite Hsol in Hsub. injection Hsub as ->. congruence. }
  assert (E : score metric solution submission id h =
              (<[solution := drop_column id tsol]> h, Raise KeyError)).
  { unfold score, del_column. rewrite Hsol, Hcs.
    rewrite lookup_insert_ne by exact Hne. now rewrite Hsub, Hcb. }
  split; [exact E|]. rewrite E. cbn [fst]. apply lookup_insert_eq.
Qed.

(** X22: the outcome does not depend on the order of the submission's
    columns, as long as their labels are distinct: scored columns are
    fetched by label, in the order of the solution. *)
Theorem score_ignores_submission_column_order (solution submission : nat)
    (id : string) (h : gmap nat DataFrame) (tsol tsub tsub' : DataFrame) :
  solution <> submission ->
  h !! solution = Some tsol ->
  h !! submission = Some tsub ->
  has_column id tsol = true ->
  has_column id tsub = true ->
  Permutation tsub tsub' ->
  NoDup (map fst tsub) ->
  snd (score metric solution submission id (<[submission := tsub']> h))
  = snd (score metric solution submission id h).
Proof.
  intros Hne Hsol Hsub Hcs Hcb P Hnd.
  rewrite (score_after_deletions _ metric _ _ _ _ _ _ Hne Hsol Hsub Hcs Hcb).
  assert (Hsol' : (<[submission := tsub']> h) !! solution = Some tsol).
  { rewrite lookup_insert_ne by (intro E; apply Hne; now symmetry).
    exact Hsol. }
  assert (Hcb' : has_column id tsub' = true).
  { unfold has_column. rewrite <- (existsb_perm _ _ _ P). exact Hcb. }
  rewrite (score_after_deletions _ metric _ _ _ _ _ _ Hne Hsol'
             (lookup_insert_eq _ _ _) Hcs Hcb').
  cbn [snd]. apply score_body_perm.
  - now apply drop_column_perm.
  - now apply drop_column_NoDup.
Qed.

(** X23: a submission that passes the numeric check but has no column
    for a class with a positive ground-truth row is answered with
    [KeyError]. *)
Theorem score_missing_scored_column (solution submission : nat)
    (id : string) (h : gmap nat DataFrame) (tsol tsub : DataFrame)
    (n : string) (c : column) :
  solution <> submission ->
  h !! solution = Some tsol ->
  h !! submission = Some tsub ->
  has_column id tsol = true ->
  has_column id tsub = true ->
  is_numeric_dtype (values_dtype (drop_column id tsub)) = true ->
  Forall (fun p => indicator (snd p)) (drop_column id tsol) ->
  In (n, c) (drop_column id tsol) ->
  has_positive c ->
  has_column n (drop_column id tsub) = false ->
  snd (score metric solution submission id h) = Raise KeyError.
Proof.
  intros Hne Hsol Hsub Hcs Hcb Hnum Hind Hin Hpos Hmiss.
  rewrite (score_after_deletions _ metric _ _ _ _ _ _ Hne Hsol Hsub Hcs Hcb).
  cbn [snd]. unfold score_body. rewrite Hnum. cbn [negb].
  destruct (scored_columns_indicator _ Hind) as (scored & -> & Hsc & _).
  assert (Hn : In n scored) by (apply Hsc; now exists c).
  destruct scored as [|m scored]; [contradiction|]. cbn [length Nat.eqb].
  rewrite (select_missing (drop_column id tsub) (m :: scored) n Hn
             (has_column_get_None _ _ Hmiss)).
  now destruct (select (drop_column id tsol) (m :: scored)).
Qed.

End More.

Lemma score_second_call_key_error_witness :
  let h := sample_store sample_submission in
  0 <> 1 /\
  h !! 0 = Some sample_solution /\
  h !! 1 = Some sample_submission /\
  has_column "row_id" sample_solution = true /\
  has_column "row_id" sample_submission = true /\
  snd (score half_metric 0 1 "row_id"
         (fst (score half_metric 0 1 "row_id" h))) = Raise KeyError.
Proof.
  cbv zeta.
  split; [exact zero_ne_one|].
  split; [apply sample_store_lookup_0|].
  split; [apply sample_store_lookup_1|].
  do 2 (split; [reflexivity|]).
  rewrite (score_second_call_key_error Empty_set half_metric 0 1 "row_id"
             (sample_store sample_submission)
             sample_solution sample_submission zero_ne_one
             (sample_store_lookup_0 _) (sample_store_lookup_1 _)
             eq_refl eq_refl).
  reflexivity.
Defined.

Lemma score_key_error_after_first_deletion_witness :
  let h := sample_store anonymous_submission in
  h !! 0 = Some sample_solution /\
  h !! 1 = Some anonymous_submission /\
  has_column "row_id" sample_solution = true /\
  has_column "row_id" anonymous_submission = false /\
  snd (score half_metric 0 1 "row_id" h) = Raise KeyError /\
  fst (score half_metric 0 1 "row_id" h) !! 0
    = Some (drop_column "row_id" sample_solution).
Proof.
  cbv zeta.
  split; [apply sample_store_lookup_0|].
  split; [apply sample_store_lookup_1|].
  do 2 (split; [reflexivity|]).
  destruct (score_key_error_after_first_deletion Empty_set half_metric 0 1
              "row_id" (sample_store anonymous_submission)
              sample_solution anonymous_submission
              (sample_store_lookup_0 _) (sample_store_lookup_1 _)
              eq_refl eq_refl) as [E Hl].
  split; [now rewrite E | exact Hl].
Defined.

Lemma sample_submission_labels_distinct :
  NoDup (map fst sample_submission).
Proof.
  repeat (constructor;
          [intro H; cbn in H;
           repeat (destruct H as [H|H]; [discriminate H|]); exact H|]).
  constructor.
Qed.

Lemma score_ignores_submission_column_order_witness :
  let h := sample_store sample_submission in
  0 <> 1 /\
  h !! 0 = Some sample_solution /\
  h !! 1 = Some sample_submission /\
  has_column "row_id" sample_solution = true /\
  has_column "row_id" sample_submission = true /\
  Permutation sample_submission reordered_submission /\
  NoDup (map fst sample_submission) /\
  snd (score half_metric 0 1 "row_id" (<[1 := reordered_submission]> h))
  = snd (score half_metric 0 1 "row_id" h).
Proof.
  cbv zeta.
  assert (P : Permutation sample_submission reordered_submission)
    by apply perm_swap.
  split; [exact zero_ne_one|].
  split; [apply sample_store_lookup_0|].
  split; [apply sample_store_lookup_1|].
  do 2 (split; [reflexivity|]).
  split; [exact P|]. split; [exact sample_submission_labels_distinct|].
  exact (score_ignores_submission_column_order Empty_set half_metric 0 1
           "row_id" (sample_store sample_submission)
           sample_solution sample_submission reordered_submission
           zero_ne_one (sample_store_lookup_0 _) (sample_store_lookup_1 _)
           eq_refl eq_refl P sample_submission_labels_distinct).
Defined.

Lemma score_missing_scored_column_witness :
  let h := sample_store short_submission in
  0 <> 1 /\
  h !! 0 = Some sample_solution /\
  h !! 1 = Some short_submission /\
  has_column "c" (drop_column "row_id" short_submission) = false /\
  snd (score half_metric 0 1 "row_id" h) = Raise KeyError.
Proof.
  cbv zeta.
  split; [exact zero_ne_one|].
  split; [apply sample_store_lookup_0|].
  split; [apply sample_store_lookup_1|].
  split; [reflexivity|].
  apply (score_missing_scored_column Empty_set half_metric 0 1 "row_id"
           (sample_store short_submission) sample_solution short_submission
           "c" (IntCol [0; 1; 1]%Z) zero_ne_one
           (sample_store_lookup_0 _) (sample_store_lookup_1 _)
           eq_refl eq_refl eq_refl sample_solution_indicator).
  - right. right. left. reflexivity.
  - exists [0; 1; 1]%Q. split; [reflexivity|].
    apply Exists_cons_tl, Exists_cons_hd. reflexivity.
  - reflexivity.
Defined.

End ScoringMore.

(* ================================================================== *)
(** * The cells in sequence, and the label names                       *)
(* ================================================================== *)

Module NotebookFacts.
Import Notebook Labels.

Section Facts.

Variable train_test_split :
  list Dataset.ndarray -> list nat ->
  option (list Dataset.ndarray * list Dataset.ndarray * list nat * list nat).
Variable params : Type.
Variable phases : nat -> option (Training.epoch_obs params).
Variable loadable : Training.checkpoint params -> bool.

Lemma train_true_returns_model (fs0 : option (Training.checkpoint params)) :
  Training.train_precomputed_crnn phases loadable true fs0
  <> Training.Returned None.
Proof.
  unfold Training.train_precomputed_crnn. cbn [negb].
  destruct (Training.for_epochs_raising _ _ _) as [[st c]|]; [|discriminate].
  destruct (Training.best_file st) as [ck|]; [|discriminate].
  destruct (loadable ck); discriminate.
Qed.

Ltac lookup_names :=
  repeat (rewrite lookup_insert_eq
          || (rewrite lookup_insert_ne by discriminate)
          || rewrite lookup_empty).

(** X24: in a fresh kernel the training call after the data cell has two
    possible courses.  If the archive could not be loaded -- the cell then
    ends normally with [X] and [y] bound to [None] -- or the cell was cut
    short by an exception, [X_train] was never bound and the call raises
    [NameError].  Otherwise the call runs the training loop.  The early
    return behind [X_train is None or y_train is None] is never taken. *)
Theorem fresh_kernel_train_call
    (f : file) (fs0 : option (Training.checkpoint params)) :
  let cell := load_cell train_test_split f ∅ in
  let call := train_cell phases loadable (fst cell) fs0 in
  match snd cell, load_precomputed_features f with
  | None, (Some _, Some _) =>
      call = Called (Training.train_precomputed_crnn phases loadable true fs0)
  | _, _ => call = CellRaised NameError
  end /\
  call <> Called (Training.Returned None).
Proof.
  cbv zeta. unfold load_cell.
  destruct (load_precomputed_features f) as [[X|] [y|]] eqn:Hload;
    cbn [of_features of_labels].
  - destruct (Filtering.filter_singletons X y) as [[X' y']|]; cbn [fst snd].
    + destruct (train_test_split X' y') as [[[[X_train X_val] y_train] y_val]|];
        cbn [fst snd]; unfold train_cell; lookup_names.
      * split; [reflexivity|]. intro E. injection E as E.
        exact (train_true_returns_model fs0 E).
      * split; [reflexivity | discriminate].
    + unfold train_cell. lookup_names. split; [reflexivity | discriminate].
  - cbn [fst snd]. unfold train_cell. lookup_names.
    split; [reflexivity | discriminate].
  - cbn [fst snd]. unfold train_cell. lookup_names.
    split; [reflexivity | discriminate].
  - cbn [fst snd]. unfold train_cell. lookup_names.
    split; [reflexivity | discriminate].
Qed.

End Facts.

Lemma list_to_map_names (g : nat -> string) (ks : list nat) (i : nat) :
  (list_to_map (map (fun k => (k, g k)) ks) : gmap nat string) !! i
  = if existsb (Nat.eqb i) ks then Some (g i) else None.
Proof.
  induction ks as [|k ks IH]; [apply lookup_empty|].
  cbn [map list_to_map foldr existsb curry uncurry].
  destruct (Nat.eqb_spec i k) as [->|Hne].
  - apply lookup_insert_eq.
  - rewrite lookup_insert_ne by (intro E; apply Hne; now symmetry). exact IH.
Qed.

Lemma existsb_seq (i n : nat) : existsb (Nat.eqb i) (seq 0 n) = (i <? n).
Proof.
  apply eq_true_iff_eq. rewrite existsb_exists, Nat.ltb_lt. split.
  - intros (x & Hx & E). apply Nat.eqb_eq in E. subst.
    apply in_seq in Hx. lia.
  - intro H. exists i. split; [apply in_seq; lia | apply Nat.eqb_refl].
Qed.

(** X25: the label mapping has an entry for each class index below
    [num_classes] and for no other key; the name of class [i] is
    ["class_"] followed by the decimal digits of [i], and distinct classes
    get distinct names. *)
Theorem label_mapping_names (num_classes i : nat) :
  label_mapping num_classes !! i
    = (if i <? num_classes then Some ("class_" +:+ pretty i) else None) /\
  (forall j s,
     label_mapping num_classes !! i = Some s ->
     label_mapping num_classes !! j = Some s -> i = j).
Proof.
  assert (L : forall k, label_mapping num_classes !! k
                = if k <? num_classes then Some ("class_" +:+ pretty k)
                  else None).
  { intro k. unfold label_mapping.
    now rewrite list_to_map_names, existsb_seq. }
  split; [apply L|].
  intros j s Hi Hj. rewrite L in Hi, Hj.
  destruct (i <? num_classes); [|discriminate].
  destruct (j <? num_classes); [|discriminate].
  injection Hi as <-. injection Hj as Hj.
  change (pretty j = pretty i) in Hj.
  symmetry. now apply (inj pretty) in Hj.
Qed.

End NotebookFacts.
